(** * printables_scraper: the download-verification core, filename
      sanitizer, path allocation and directory reconciliation

    A shallow embedding of [utils.py] ([sanitize_filename],
    [wait_for_download_completion], the path allocation at the head of
    [download_image]) and of Step 4 of [main.py] (move and rewrite).

    Conventions of the embedding.
    - A Python [str] is a [string]; one [ascii] stands for one code point
      below 256, with the character classes Python gives those code points.
    - [os.path] is [posixpath].
    - The clock is logical: [time.time()] reads it, [time.sleep d] advances
      it by exactly [d] seconds and nothing else takes time.  The file
      system is observed through functions of that clock. *)

From Stdlib Require Import ZArith List String Ascii Bool Lia Arith.
From Stdlib Require Import DecimalString DecimalNat.
Import ListNotations.

Local Open Scope string_scope.
Local Open Scope bool_scope.

(** ** Python string primitives *)

Module PyStr.

Definition code (c : ascii) : nat := nat_of_ascii c.

Definition between (lo hi : nat) (c : ascii) : bool :=
  (lo <=? code c)%nat && (code c <=? hi)%nat.

(** [str.isspace] and the regex class [\s], code points below 256. *)
Definition isspace (c : ascii) : bool :=
  between 9 13 c || between 28 32 c
  || (code c =? 133)%nat || (code c =? 160)%nat.

(** The regex class [\w]: alphanumeric code points and the underscore. *)
Definition isword (c : ascii) : bool :=
  between 48 57 c || between 65 90 c || (code c =? 95)%nat
  || between 97 122 c
  || (code c =? 170)%nat || between 178 179 c || (code c =? 181)%nat
  || between 185 186 c || between 188 190 c
  || between 192 214 c || between 216 246 c || between 248 255 c.

(** [str.lower] on one code point. *)
Definition lower_char (c : ascii) : ascii :=
  if between 65 90 c || between 192 214 c || between 216 222 c
  then ascii_of_nat (code c + 32) else c.

Fixpoint lower (s : string) : string :=
  match s with
  | EmptyString => EmptyString
  | String c s' => String (lower_char c) (lower s')
  end.

Fixpoint filter (p : ascii -> bool) (s : string) : string :=
  match s with
  | EmptyString => EmptyString
  | String c s' => if p c then String c (filter p s') else filter p s'
  end.

Fixpoint lstrip (p : ascii -> bool) (s : string) : string :=
  match s with
  | EmptyString => EmptyString
  | String c s' => if p c then lstrip p s' else s
  end.

Fixpoint rstrip (p : ascii -> bool) (s : string) : string :=
  match s with
  | EmptyString => EmptyString
  | String c s' =>
      match rstrip p s' with
      | EmptyString => if p c then EmptyString else String c EmptyString
      | r => String c r
      end
  end.

(** [s.strip()] with [p := isspace], [s.strip(chars)] with [p] the
    membership test of [chars]. *)
Definition strip (p : ascii -> bool) (s : string) : string :=
  rstrip p (lstrip p s).

Fixpoint mem (c : ascii) (s : string) : bool :=
  match s with
  | EmptyString => false
  | String d s' => Ascii.eqb c d || mem c s'
  end.

(** [s.endswith(suffix)]. *)
Definition endswith (s suffix : string) : bool :=
  let n := String.length s in
  let m := String.length suffix in
  (m <=? n)%nat && String.eqb (substring (n - m) m s) suffix.

(** [s.endswith(t)] for a tuple [t] of suffixes. *)
Definition endswith_any (s : string) (suffixes : list string) : bool :=
  existsb (endswith s) suffixes.

(** [s[:n]]. *)
Definition take (n : nat) (s : string) : string := substring 0 n s.

(** [s[n:]]. *)
Fixpoint drop (n : nat) (s : string) : string :=
  match n, s with
  | O, _ => s
  | S _, EmptyString => EmptyString
  | S n', String _ s' => drop n' s'
  end.

(** [s.rfind(c)] for a one-character needle; [None] is Python's [-1]. *)
Fixpoint rfind (c : ascii) (s : string) : option nat :=
  match s with
  | EmptyString => None
  | String d s' =>
      match rfind c s' with
      | Some i => Some (S i)
      | None => if Ascii.eqb c d then Some O else None
      end
  end.

(** [str(n)] for a non-negative integer. *)
Definition of_nat (n : nat) : string :=
  NilEmpty.string_of_uint (Nat.to_uint n).

(** Occurrence of a code point in a string. *)
Definition occurs (c : ascii) (s : string) : Prop :=
  In c (list_ascii_of_string s).

End PyStr.

(** ** [utils.py]: [sanitize_filename] *)

Module Sanitizer.
Import PyStr.

(** The class [[\w\s.-]]: what the first substitution keeps. *)
Definition allowed (c : ascii) : bool :=
  isword c || isspace c || Ascii.eqb c "." || Ascii.eqb c "-".

(** [re.sub(r'\s+', '_', s)]: every maximal run of whitespace becomes one
    underscore; [in_run] says that the previous code point was whitespace. *)
Fixpoint sub_spaces (in_run : bool) (s : string) : string :=
  match s with
  | EmptyString => EmptyString
  | String c s' =>
      if isspace c
      then if in_run then sub_spaces true s'
           else String "_" (sub_spaces true s')
      else String c (sub_spaces false s')
  end.

Definition sanitize_filename (name : string) : string :=
  let s := strip isspace (filter allowed name) in
  let s := sub_spaces false s in
  let s := strip (fun c => mem c "_-") s in
  take 100 s.

(** The path separators of [os.path] ([os.sep] and the Windows one). *)
Definition is_separator (c : ascii) : bool :=
  Ascii.eqb c "/" || Ascii.eqb c "\".

End Sanitizer.

(** ** [os.path] (posixpath) *)

Module Posix.
Import PyStr.

Definition startswith_sep (s : string) : bool :=
  match s with
  | String c _ => Ascii.eqb c "/"
  | EmptyString => false
  end.

(** [os.path.join(a, b)]. *)
Definition join (a b : string) : string :=
  if startswith_sep b then b
  else if String.eqb a "" || endswith a "/" then a ++ b
  else a ++ "/" ++ b.

(** [os.path.basename(p)]: what follows the last separator. *)
Definition basename (p : string) : string :=
  match rfind "/" p with
  | Some i => drop (S i) p
  | None => p
  end.

(** [os.path.splitext(p)]: split at the last dot of the last component,
    unless that component has only leading dots before it. *)
Definition splitext (p : string) : string * string :=
  let start := match rfind "/" p with Some i => S i | None => O end in
  match rfind "." p with
  | None => (p, "")
  | Some dot =>
      if (start <=? dot)%nat
      then match filter (fun c => negb (Ascii.eqb c "."))
                   (substring start (dot - start) p) with
           | EmptyString => (p, "")
           | _ => (take dot p, drop dot p)
           end
      else (p, "")
  end.

End Posix.

(** Python sets of file names, as lists used through membership only. *)

Module PySet.

Definition in_set (f : string) (s : list string) : bool :=
  existsb (String.eqb f) s.

(** [set(l)].  Python leaves the iteration order of a set open; here it is
    the order of first occurrence in [l], and since the listings are
    arbitrary lists every order is covered. *)
Fixpoint of_list (l : list string) : list string :=
  match l with
  | [] => []
  | f :: l' => f :: List.filter (fun g => negb (String.eqb g f)) (of_list l')
  end.

(** [a - b]. *)
Definition diff (a b : list string) : list string :=
  List.filter (fun f => negb (in_set f b)) a.

End PySet.

(** ** [utils.py]: [wait_for_download_completion] *)

Module Detector.
Import PyStr Posix PySet.
Local Open Scope Z_scope.

(** What the call can observe of the file system at each instant of the
    logical clock.  [None] stands for a raised [OSError]; a size is a
    natural number of bytes, a modification time an integer number of
    clock units. *)
Record world := {
  path_exists : Z -> string -> bool;
  listdir : Z -> string -> option (list string);
  getmtime : Z -> string -> option Z;
  getsize : Z -> string -> option N
}.

(** How a call ends.  [OutOfFuel] belongs to the embedding only: the
    [while] loop is unfolded a bounded number of times, and
    [wait_for_download_completion_total] shows the bound is never hit. *)
Inductive outcome :=
| Returned (r : option string)
| Raised
| OutOfFuel.

Definition partial_extensions : list string :=
  [".crdownload"; ".part"; ".tmp"; ".torrent"; ".download"; ".inprogress"].

Definition is_partial (f : string) : bool :=
  endswith_any (lower f) partial_extensions.

(** [set(os.listdir(d) if os.path.exists(d) else [])]; [None] when
    [os.listdir] raises. *)
Definition current_files (w : world) (download_dir : string) (now : Z)
  : option (list string) :=
  if path_exists w now download_dir
  then option_map of_list (listdir w now download_dir)
  else Some [].

(** The loop that pairs each candidate with its modification time and
    skips the ones whose [os.path.getmtime] raises. *)
Fixpoint candidates_with_mtime (w : world) (download_dir : string)
         (now : Z) (files : list string) : list (string * Z) :=
  match files with
  | [] => []
  | f_name :: rest =>
      let f_path := join download_dir f_name in
      match getmtime w now f_path with
      | Some m => (f_path, m) :: candidates_with_mtime w download_dir now rest
      | None => candidates_with_mtime w download_dir now rest
      end
  end.

(** [list.sort(key=lambda x: x[1], reverse=True)]: stable, descending. *)
Fixpoint insert_desc (x : string * Z) (l : list (string * Z))
  : list (string * Z) :=
  match l with
  | [] => [x]
  | y :: l' => if snd y <=? snd x then x :: y :: l'
               else y :: insert_desc x l'
  end.

Definition sort_by_mtime_desc (l : list (string * Z)) : list (string * Z) :=
  fold_right insert_desc [] l.

(** One pass of the scanning part of the loop body. *)
Inductive scan_result :=
| ScanRaised
| NoNewFile
| NoReadableCandidate
| Candidate (downloaded_file_path : string).

Definition new_completed_files (current initial_files : list string)
  : list string :=
  List.filter (fun f => negb (is_partial f)) (diff current initial_files).

Definition scan (w : world) (download_dir : string)
           (initial_files : list string) (now : Z) : scan_result :=
  match current_files w download_dir now with
  | None => ScanRaised
  | Some current =>
      match new_completed_files current initial_files with
      | [] => NoNewFile
      | completed =>
          match sort_by_mtime_desc
                  (candidates_with_mtime w download_dir now completed) with
          | [] => NoReadableCandidate
          | (p, _) :: _ => Candidate p
          end
      end
  end.

(** The [for check_attempt in range(25)] loop, [attempts] iterations
    left.  It returns the result and the clock at which it returns. *)
Fixpoint stability (w : world) (downloaded_file_path : string)
         (attempts : nat) (stable_size_checks last_known_size now : Z)
  : option string * Z :=
  match attempts with
  | O => (None, now)
  | S attempts' =>
      match getsize w now downloaded_file_path with
      | Some size =>
          let current_size := Z.of_N size in
          if (0 <? current_size) && (current_size =? last_known_size)
          then
            let stable_size_checks := stable_size_checks + 1 in
            if 5 <=? stable_size_checks
            then (Some downloaded_file_path, now)
            else stability w downloaded_file_path attempts'
                           stable_size_checks last_known_size (now + 1)
          else if 0 <=? current_size
          then stability w downloaded_file_path attempts'
                         (if 0 <? current_size then 1 else 0)
                         current_size (now + 1)
          else stability w downloaded_file_path attempts'
                         stable_size_checks last_known_size (now + 1)
      | None =>
          stability w downloaded_file_path attempts'
                    0 last_known_size (now + 1)
      end
  end.

(** The bookkeeping of the stability loop: the last [stable] ticks, all
    of them at or after [start], read the size [last], and a positive
    count goes with a positive size. *)
Definition stable_run (w : world) (p : string)
           (start stable last now : Z) : Prop :=
  0 <= stable
  /\ start <= now - stable
  /\ (0 < stable -> 0 < last)
  /\ forall k, 1 <= k <= stable ->
               option_map Z.of_N (getsize w (now - k) p) = Some last.

(** The [while time.time() - timeout_start < timeout] loop. *)
Fixpoint polling (w : world) (download_dir : string)
         (initial_files : list string) (timeout_start timeout : Z)
         (fuel : nat) (now : Z) : outcome * Z :=
  match fuel with
  | O => (OutOfFuel, now)
  | S fuel' =>
      if now - timeout_start <? timeout
      then
        match scan w download_dir initial_files now with
        | ScanRaised => (Raised, now)
        | NoNewFile =>
            polling w download_dir initial_files timeout_start timeout
                    fuel' (now + 2)
        | NoReadableCandidate =>
            polling w download_dir initial_files timeout_start timeout
                    fuel' (now + 1)
        | Candidate p =>
            let '(r, t) := stability w p 25 0 (-1) now in (Returned r, t)
        end
      else (Returned None, now)
  end.

(** The call, entered when the clock reads [clock]; the second component
    is the clock when it ends. *)
Definition wait_for_download_completion (w : world) (download_dir : string)
           (initial_files : list string) (timeout : Z) (clock : Z)
  : outcome * Z :=
  polling w download_dir initial_files clock timeout
          (S (Z.to_nat timeout)) clock.

(** The instants at which a call entered at [clock] starts a pass of the
    [while] loop: the scanning state of the detector and its two sleeps. *)
Inductive scanning (w : world) (download_dir : string)
          (initial_files : list string) (timeout clock : Z) : Z -> Prop :=
| scanning_entry :
    scanning w download_dir initial_files timeout clock clock
| scanning_no_new_file now :
    scanning w download_dir initial_files timeout clock now ->
    now - clock < timeout ->
    scan w download_dir initial_files now = NoNewFile ->
    scanning w download_dir initial_files timeout clock (now + 2)
| scanning_no_readable_candidate now :
    scanning w download_dir initial_files timeout clock now ->
    now - clock < timeout ->
    scan w download_dir initial_files now = NoReadableCandidate ->
    scanning w download_dir initial_files timeout clock (now + 1).

End Detector.

(** ** [utils.py]: the path allocation at the head of [download_image] *)

Module Allocator.
Import PyStr Posix PySet.

(** The paths that exist, as the program names them (relative paths are
    relative to the working directory). *)
Definition filesystem := list string.

Definition os_path_exists (fs : filesystem) (p : string) : bool :=
  in_set p fs.

(** The [while os.path.exists(initial_file_path)] loop; [fuel] bounds its
    iterations, [None] is the bound reached ([allocate_total]: it is not,
    with one more iteration than there are paths). *)
Fixpoint probe (fs : filesystem) (base_temp ext_temp : string)
         (fuel counter_temp : nat) (initial_file_path : string)
  : option string :=
  if os_path_exists fs initial_file_path
  then match fuel with
       | O => None
       | S fuel' =>
           probe fs base_temp ext_temp fuel' (S counter_temp)
                 (base_temp ++ "_" ++ of_nat counter_temp ++ ext_temp)
       end
  else Some initial_file_path.

(** Lines 171-176 of [utils.py]: the path the image is first written to. *)
Definition allocate (fs : filesystem)
           (destination_folder temp_filename : string) : option string :=
  let '(base_temp, ext_temp) := splitext temp_filename in
  probe fs base_temp ext_temp (S (List.length fs)) 1
        (join destination_folder temp_filename).

End Allocator.

(** ** [main.py]: Step 4, move and rewrite *)

Module Reconciler.
Import PyStr Posix PySet.

(** The [details] dictionary of one model. *)
Record details := {
  title : string;
  description : string;
  images : list string;
  grams : option Z;
  tags : list string;
  downloaded_filepaths : list string;
  downloaded_image_filepaths : list string;
  url : string
}.

(** The four directories Step 4 touches, each by its entries; a temporary
    directory may be missing ([None]). *)
Record tree := {
  temp_images : option (list string);
  final_images : list string;
  temp_files : option (list string);
  final_files : list string
}.

(** The names of those directories. *)
Record layout := {
  temp_image_subdir : string;
  final_image_destination : string;
  temp_files_subdir : string;
  final_files_destination : string
}.

Inductive move_result :=
| Moved
| ShutilError   (* raised by [shutil.move]: the destination path exists *)
| OSError.      (* raised below it: rename and its copy fallback failed *)

(** [shutil.move(os.path.join(src_dir, item_name), dst_dir)] on the
    entries [src] and [dst] of the two directories.  [os_fails] tells for
    which source paths the operating system refuses the move.  After such
    a refusal the entries are shown as they were before the call: the
    item is still in the source, and whether the copy fallback of
    [shutil.move] left a copy of it in the destination is not tracked. *)
Definition shutil_move (os_fails : string -> bool) (src_dir item_name : string)
           (src dst : list string) : move_result * (list string * list string) :=
  if in_set item_name dst then (ShutilError, (src, dst))
  else if os_fails (join src_dir item_name) then (OSError, (src, dst))
  else (Moved, (List.filter (fun g => negb (String.eqb g item_name)) src,
                (dst ++ [item_name])%list)).

(** [for item_name in os.listdir(src_dir)]: [shutil.Error] is caught and
    the loop goes on; any other exception leaves the loop ([false]). *)
Fixpoint move_items (os_fails : string -> bool) (src_dir : string)
         (items : list string) (src dst : list string)
  : bool * (list string * list string) :=
  match items with
  | [] => (true, (src, dst))
  | item_name :: rest =>
      match shutil_move os_fails src_dir item_name src dst with
      | (Moved, (src', dst')) => move_items os_fails src_dir rest src' dst'
      | (ShutilError, (src', dst')) => move_items os_fails src_dir rest src' dst'
      | (OSError, st) => (false, st)
      end
  end.

(** [if os.path.exists(src_dir): for item_name in os.listdir(src_dir): ...] *)
Definition move_contents (os_fails : string -> bool) (src_dir : string)
           (src : option (list string)) (dst : list string)
  : bool * (option (list string) * list string) :=
  match src with
  | None => (true, (None, dst))
  | Some entries =>
      let '(ok, (src', dst')) :=
        move_items os_fails src_dir entries entries dst in
      (ok, (Some src', dst'))
  end.

(** A temporary directory with nothing to move: missing, or empty. *)
Definition nothing_to_move (src : option (list string)) : Prop :=
  src = None \/ src = Some [].

(** [os.path.join(destination, os.path.basename(p))] for every recorded
    path. *)
Definition rewrite_paths (destination : string) (paths : list string)
  : list string :=
  map (fun p => join destination (basename p)) paths.

Definition rewrite_details (l : layout) (d : details) : details :=
  {| title := title d;
     description := description d;
     images := images d;
     grams := grams d;
     tags := tags d;
     downloaded_filepaths :=
       rewrite_paths (final_files_destination l) (downloaded_filepaths d);
     downloaded_image_filepaths :=
       rewrite_paths (final_image_destination l)
                     (downloaded_image_filepaths d);
     url := url d |}.

(** How Step 4 ends: it runs to its end, or an exception other than
    [shutil.Error] leaves it before the record is touched.  The tree of
    [Aborted] shows the moves that were completed; it leaves open whether
    a copy of the refused item reached its destination. *)
Inductive step4_result :=
| Completed (t : tree) (d : details)
| Aborted (t : tree).

Definition move_and_rewrite (os_fails : string -> bool) (l : layout)
           (t : tree) (d : details) : step4_result :=
  let '(ok_i, (ti, fi)) :=
    move_contents os_fails (temp_image_subdir l)
                  (temp_images t) (final_images t) in
  if ok_i then
    let '(ok_f, (tf, ff)) :=
      move_contents os_fails (temp_files_subdir l)
                    (temp_files t) (final_files t) in
    let t' := {| temp_images := ti; final_images := fi;
                 temp_files := tf; final_files := ff |} in
    if ok_f then Completed t' (rewrite_details l d) else Aborted t'
  else
    Aborted {| temp_images := ti; final_images := fi;
               temp_files := temp_files t; final_files := final_files t |}.

End Reconciler.

(** ** [main.py] and [scraper.py]: the records Step 4 is entered with *)

Module RecordStates.
Import PyStr Posix PySet Reconciler.

Definition entries_of (src : option (list string)) : list string :=
  match src with
  | Some entries => entries
  | None => []
  end.

(** Every path of the list names an entry of the directory [dir], whose
    entries are [src]. *)
Definition names_entries_of (dir : string) (src : option (list string))
           (paths : list string) : Prop :=
  forall p, In p paths -> exists x, In x (entries_of src) /\ p = join dir x.

(** A record as [scrape_model_details] hands it to Step 4: its paths name
    what was put into the two temporary directories. *)
Definition recorded (l : layout) (t : tree) (d : details) : Prop :=
  names_entries_of (temp_files_subdir l) (temp_files t)
                   (downloaded_filepaths d)
  /\ names_entries_of (temp_image_subdir l) (temp_images t)
                      (downloaded_image_filepaths d).

(** A record that an earlier run of Step 4 returned. *)
Definition relocated (l : layout) (d : details) : Prop :=
  exists d0, d = rewrite_details l d0.

End RecordStates.

(** ** Concrete file systems used to exercise the definitions *)

Module Scenarios.
Import PyStr Posix PySet Detector.
Local Open Scope Z_scope.

Definition only (p : string) {A : Type} (v : A) (q : string) : option A :=
  if String.eqb q p then Some v else None.

(** [dl/a.zip] shows up at second 2 with 5 bytes, has 10 bytes from
    second 4 on and never changes again. *)
Definition growing : world := {|
  path_exists := fun _ p => String.eqb p "dl";
  listdir := fun t p =>
    only "dl" (if t <? 2 then [] else ["a.zip"]) p;
  getmtime := fun _ p => only "dl/a.zip" 0 p;
  getsize := fun t p => only "dl/a.zip" (if t <? 4 then 5%N else 10%N) p
|}.

(** Only a browser's partial file ever shows up; its size never moves. *)
Definition stalled : world := {|
  path_exists := fun _ p => String.eqb p "dl";
  listdir := fun _ p => only "dl" ["old.txt"; "a.zip.CRDOWNLOAD"] p;
  getmtime := fun _ p => Some 0;
  getsize := fun _ p => Some 10%N
|}.

(** The polled directory does not exist. *)
Definition missing : world := {|
  path_exists := fun _ _ => false;
  listdir := fun _ _ => None;
  getmtime := fun _ _ => None;
  getsize := fun _ _ => None
|}.

(** Two new files: [big.zip], the most recently modified, grows by one
    byte every second; [small.txt] is complete from the start. *)
Definition restless : world := {|
  path_exists := fun _ p => String.eqb p "dl";
  listdir := fun _ p => only "dl" ["small.txt"; "big.zip"] p;
  getmtime := fun _ p =>
    if String.eqb p "dl/big.zip" then Some 9 else only "dl/small.txt" 1 p;
  getsize := fun t p =>
    if String.eqb p "dl/big.zip" then Some (Z.to_N t + 1)%N
    else only "dl/small.txt" 7%N p
|}.

(** The directories of one model in Step 4 of [main.py]. *)
Definition model_layout : Reconciler.layout := {|
  Reconciler.temp_image_subdir := "out/1_temp_model_folder/images";
  Reconciler.final_image_destination := "out/Toys/1_Boat/images";
  Reconciler.temp_files_subdir := "out/1_temp_model_folder/files";
  Reconciler.final_files_destination := "out/Toys/1_Boat/files"
|}.

Definition record_of (files : list string) : Reconciler.details := {|
  Reconciler.title := "Boat";
  Reconciler.description := "N/A";
  Reconciler.images := [];
  Reconciler.grams := None;
  Reconciler.tags := ["Toys"];
  Reconciler.downloaded_filepaths := files;
  Reconciler.downloaded_image_filepaths := [];
  Reconciler.url := "https://www.printables.com/model/1"
|}.


(** Nothing waits in the temporary directories. *)
Definition emptied : Reconciler.tree := {|
  Reconciler.temp_images := Some [];
  Reconciler.final_images := ["image_1.jpg"];
  Reconciler.temp_files := Some [];
  Reconciler.final_files := []
|}.

Definition no_os_failure (p : string) : bool := false.

End Scenarios.

(** ** [utils.py]: [sanitize_filename] before its last step *)

Module SanitizerSteps.
Import PyStr Sanitizer.

(** The value of [s] in [sanitize_filename] before [return s[:100]]. *)
Definition untruncated (name : string) : string :=
  strip (fun c => mem c "_-")
        (sub_spaces false (strip isspace (filter allowed name))).

End SanitizerSteps.

(** ** [utils.py]: [clean_directory] *)

Module Cleaner.
Import PyStr Posix.

(** What [os.path.isfile], [os.path.islink] and [os.path.isdir] tell of an
    entry: a regular file (or a link to one), another symbolic link, a
    directory, or none of these (a socket, a pipe, a device). *)
Inductive kind := RegularFile | SymLink | Directory | Special.

(** A directory by its entries, [None] when it does not exist. *)
Definition directory := option (list (string * kind)).

(** The body of the loop for one entry: [true] when the entry is gone
    afterwards.  [fails] tells for which paths [os.unlink] or
    [shutil.rmtree] raises; the exception is caught and printed. *)
Definition remove_item (fails : string -> bool) (directory_path : string)
           (item : string * kind) : bool :=
  let item_path := join directory_path (fst item) in
  match snd item with
  | RegularFile | SymLink => negb (fails item_path)
  | Directory => negb (fails item_path)
  | Special => false
  end.

(** [for item_name in os.listdir(directory_path)], on the entries still
    there. *)
Fixpoint clean_items (fails : string -> bool) (directory_path : string)
         (items present : list (string * kind)) : list (string * kind) :=
  match items with
  | [] => present
  | item :: rest =>
      clean_items fails directory_path rest
        (if remove_item fails directory_path item
         then List.filter (fun e => negb (String.eqb (fst e) (fst item)))
                          present
         else present)
  end.

(** [clean_directory(directory_path)]: a missing directory is created. *)
Definition clean_directory (fails : string -> bool) (directory_path : string)
           (d : directory) : directory :=
  match d with
  | None => Some []
  | Some entries =>
      Some (clean_items fails directory_path entries entries)
  end.

End Cleaner.

(** ** [utils.py]: the final JPG path of [download_image] *)

Module JpgPath.
Import PyStr Posix PySet Allocator.

(** The [while os.path.exists(final_jpg_path) and final_jpg_path !=
    initial_file_path] loop; [stem] is
    [os.path.splitext(original_final_jpg_path)[0]]. *)
Fixpoint probe_jpg (fs : filesystem) (stem initial_file_path : string)
         (fuel jpg_counter : nat) (final_jpg_path : string) : option string :=
  if os_path_exists fs final_jpg_path
     && negb (String.eqb final_jpg_path initial_file_path)
  then match fuel with
       | O => None
       | S fuel' =>
           probe_jpg fs stem initial_file_path fuel' (S jpg_counter)
                     (stem ++ "_" ++ of_nat jpg_counter ++ ".jpg")
       end
  else Some final_jpg_path.

(** Lines 190-199 of [utils.py], on the file system as it is once the
    image has been written to [initial_file_path]. *)
Definition unique_jpg_path (fs : filesystem)
           (destination_folder initial_file_path : string) : option string :=
  let base_name_without_ext := fst (splitext (basename initial_file_path)) in
  let original_final_jpg_path :=
    join destination_folder (base_name_without_ext ++ ".jpg") in
  probe_jpg fs (fst (splitext original_final_jpg_path)) initial_file_path
            (S (List.length fs)) 1 original_final_jpg_path.

End JpgPath.

(** ** [main.py]: the URL list file *)

Module UrlFile.
Import PyStr.

Definition LF : ascii := "010"%char.
Definition CR : ascii := "013"%char.

(** A text file: missing, one whose reading raises [IOError], or its text. *)
Inductive file := Missing | Unreadable | Content (text : string).

(** What [save_urls_to_file] writes: every URL followed by a line feed. *)
Fixpoint written (urls : list string) : string :=
  match urls with
  | [] => ""
  | url :: rest => url ++ String LF (written rest)
  end.

(** [for line in f] on a file opened in text mode: [\r\n] and [\r] are read
    as [\n], and every line keeps its closing [\n]. *)
Fixpoint readlines (text : string) : list string :=
  match text with
  | EmptyString => []
  | String c rest =>
      if Ascii.eqb c LF then String LF "" :: readlines rest
      else if Ascii.eqb c CR then
        match rest with
        | String d rest' =>
            if Ascii.eqb d LF then String LF "" :: readlines rest'
            else String LF "" :: readlines rest
        | EmptyString => [String LF ""]
        end
      else
        match readlines rest with
        | [] => [String c ""]
        | line :: lines => String c line :: lines
        end
  end.

Definition nonempty (s : string) : bool := negb (String.eqb s "").

(** A URL that no line break cuts in two. *)
Definition no_line_break (url : string) : Prop :=
  ~ occurs LF url /\ ~ occurs CR url.

(** [load_urls_from_file]: the stripped lines that are not empty; no URL
    when the file is missing or cannot be read. *)
Definition load_urls_from_file (f : file) : list string :=
  match f with
  | Missing => []
  | Unreadable => []
  | Content text =>
      List.filter nonempty (map (strip isspace) (readlines text))
  end.

End UrlFile.

(** ** [scraper.py] and [main.py]: links, model ids and directory names *)

Module ModelId.
Import PyStr Sanitizer.

(** [s.split('?')[0]]. *)
Fixpoint before_query (s : string) : string :=
  match s with
  | EmptyString => EmptyString
  | String c s' => if Ascii.eqb c "?" then EmptyString
                   else String c (before_query s')
  end.

(** The link [scrape_models] collects for one [href], if any. *)
Definition collect_link (href : string) : option string :=
  if negb (String.eqb href "") && String.prefix "/model/" href
  then Some ("https://www.printables.com" ++ before_query href)
  else None.

(** The regex class [\d], code points below 256. *)
Definition isdigit (c : ascii) : bool := between 48 57 c.

(** The longest run of digits a string starts with: the group [(\d+)]. *)
Fixpoint digits (s : string) : string :=
  match s with
  | EmptyString => EmptyString
  | String c s' => if isdigit c then String c (digits s') else EmptyString
  end.

(** A match of [/model/(\d+)] at the start of [s]: its group. *)
Definition match_here (s : string) : option string :=
  if String.prefix "/model/" s
  then match digits (drop 7 s) with
       | EmptyString => None
       | group => Some group
       end
  else None.

(** [re.search(r'/model/(\d+)', url)]: the leftmost match. *)
Fixpoint search (url : string) : option string :=
  match match_here url with
  | Some group => Some group
  | None =>
      match url with
      | EmptyString => None
      | String _ rest => search rest
      end
  end.

(** [model_id], for the URL of index [i]. *)
Definition model_id (i : nat) (url : string) : string :=
  match search url with
  | Some group => group
  | None => "unknown_id_" ++ of_nat i
  end.

(** [final_model_directory_name]. *)
Definition final_model_directory_name (i : nat) (url actual_title : string)
  : string :=
  model_id i url ++ "_" ++ sanitize_filename actual_title.

End ModelId.

(** ** [scraper.py]: tags and recorded download paths *)

Module Scraped.
Import PyStr Posix PySet.

(** One pass of a tag loop; [breadcrumb] is set in the first loop, which
    leaves out the root category. *)
Definition add_tag (breadcrumb : bool) (tags : list string) (text : string)
  : list string :=
  let tag_text := strip isspace text in
  if negb (String.eqb tag_text "")
     && negb (breadcrumb && in_set tag_text ["3D Models"])
     && negb (in_set tag_text tags)
  then (tags ++ [tag_text])%list
  else tags.

(** The two tag loops of [scrape_model_details], from the texts of the
    breadcrumb links and of the attribute links. *)
Definition collect_tags (breadcrumbs attributes : list string) : list string :=
  fold_left (add_tag false) attributes
            (fold_left (add_tag true) breadcrumbs []).

(** What the tag loops keep true of the list. *)
Definition tidy (tags : list string) : Prop :=
  NoDup tags
  /\ forall t, In t tags -> t <> "" /\ strip isspace t = t.

(** The path [scrape_model_details] records for a verified download:
    the place it was moved to, or the temporary one when [shutil.move]
    raised [shutil.Error]. *)
Definition recorded_path (moved : bool)
           (final_model_output_files_dir downloaded_temp_path : string)
  : string :=
  if moved
  then join final_model_output_files_dir (basename downloaded_temp_path)
  else downloaded_temp_path.

End Scraped.

(** ** More concrete file systems *)

Module MoreScenarios.
Import PyStr Posix PySet Detector.
Local Open Scope Z_scope.

(** The polled directory exists but cannot be listed. *)
Definition unlistable : world := {|
  path_exists := fun _ _ => true;
  listdir := fun _ _ => None;
  getmtime := fun _ _ => None;
  getsize := fun _ _ => None
|}.

(** A temporary download directory after a model was processed. *)
Definition leftovers : list (string * Cleaner.kind) :=
  [("model.zip", Cleaner.RegularFile);
   ("model.zip.crdownload", Cleaner.RegularFile);
   ("unpacked", Cleaner.Directory)].

(** Both temporary directories of a model hold entries; the final files
    directory already holds a [b.stl]. *)
Definition crowded : Reconciler.tree := {|
  Reconciler.temp_images := Some ["image_1.jpg"; "image_2.jpg"];
  Reconciler.final_images := [];
  Reconciler.temp_files := Some ["a.stl"; "b.stl"];
  Reconciler.final_files := ["b.stl"]
|}.

End MoreScenarios.

(** * Properties *)

(** ** The sanitizer *)

Section SanitizerFacts.
Import PyStr Sanitizer.

Lemma occurs_filter (p : ascii -> bool) (c : ascii) (s : string) :
  occurs c (filter p s) -> p c = true /\ occurs c s.
Proof.
  unfold occurs; induction s as [|d s IH]; simpl; [tauto|].
  destruct (p d) eqn:Hd; simpl.
  - intros [->|H]; [auto|]. destruct (IH H); auto.
  - intros H. destruct (IH H); auto.
Qed.

Lemma occurs_lstrip (p : ascii -> bool) (c : ascii) (s : string) :
  occurs c (lstrip p s) -> occurs c s.
Proof.
  unfold occurs; induction s as [|d s IH]; simpl; [tauto|].
  destruct (p d); simpl; auto.
Qed.

Lemma occurs_rstrip (p : ascii -> bool) (c : ascii) (s : string) :
  occurs c (rstrip p s) -> occurs c s.
Proof.
  unfold occurs; induction s as [|d s IH]; simpl; [tauto|].
  destruct (rstrip p s) as [|e r] eqn:Hr.
  - destruct (p d); simpl; tauto.
  - simpl. intros [->|H]; [auto|]. right. apply IH. exact H.
Qed.

Lemma occurs_strip (p : ascii -> bool) (c : ascii) (s : string) :
  occurs c (strip p s) -> occurs c s.
Proof. intros H. apply (occurs_lstrip p), (occurs_rstrip p), H. Qed.

Lemma occurs_sub_spaces (c : ascii) (s : string) (in_run : bool) :
  occurs c (sub_spaces in_run s) -> c = "_"%char \/ occurs c s.
Proof.
  unfold occurs; revert in_run; induction s as [|d s IH]; simpl; intros b;
    [tauto|].
  destruct (isspace d).
  - destruct b; simpl.
    + intros H. destruct (IH _ H); auto.
    + intros [<-|H]; [auto|]. destruct (IH _ H); auto.
  - simpl. intros [->|H]; [auto|]. destruct (IH _ H); auto.
Qed.

Lemma occurs_take (c : ascii) (n : nat) (s : string) :
  occurs c (take n s) -> occurs c s.
Proof.
  unfold occurs, take; revert n; induction s as [|d s IH]; intros [|n];
    simpl; try tauto.
  intros [->|H]; [auto|]. right. exact (IH _ H).
Qed.

(** Every code point of the result is an underscore or one the first
    substitution keeps. *)
Lemma sanitize_filename_alphabet (name : string) (c : ascii) :
  occurs c (sanitize_filename name) -> c = "_"%char \/ allowed c = true.
Proof.
  unfold sanitize_filename. intros H.
  apply occurs_take, occurs_strip, occurs_sub_spaces in H.
  destruct H as [H|H]; [auto|].
  apply occurs_strip, occurs_filter in H. right. tauto.
Qed.

Lemma separator_not_allowed (c : ascii) :
  is_separator c = true -> allowed c = false /\ c <> "_"%char.
Proof.
  unfold is_separator. intros H. apply orb_true_iff in H.
  destruct H as [H|H]; apply Ascii.eqb_eq in H; subst c;
    (split; [reflexivity|discriminate]).
Qed.

Example sanitize_filename_title :
  sanitize_filename "My: Cool/Model?? v2" = "My_CoolModel_v2".
Proof. reflexivity. Qed.

(** C6, as the claim states it, fails: the sanitizer returns the segment
    [..] unchanged. *)
Lemma sanitize_filename_returns_dotdot : sanitize_filename ".." = "..".
Proof. reflexivity. Qed.

(** C6 (amended): for every input string the output of
    [sanitize_filename] contains no path separator ([/] or [\]); the
    segment [..] is not rejected: it is returned as it is. *)
Theorem sanitize_filename_no_separator :
  (forall (name : string) (c : ascii),
      occurs c (sanitize_filename name) -> is_separator c = false)
  /\ sanitize_filename ".." = "..".
Proof.
  split; [|reflexivity].
  intros name c H. destruct (is_separator c) eqn:Hs; [|reflexivity].
  destruct (separator_not_allowed c Hs) as [Ha Hu].
  destruct (sanitize_filename_alphabet name c H) as [E|E]; congruence.
Qed.

End SanitizerFacts.

(** ** Strings and paths *)

Section PathFacts.
Import PyStr Posix.

Lemma append_nil_r (s : string) : s ++ "" = s.
Proof. induction s as [|c s IH]; simpl; [reflexivity|now rewrite IH]. Qed.

Lemma append_assoc (x y z : string) : (x ++ y) ++ z = x ++ (y ++ z).
Proof. induction x as [|c x IH]; simpl; [reflexivity|now rewrite IH]. Qed.

Lemma length_append (x y : string) :
  String.length (x ++ y) = (String.length x + String.length y)%nat.
Proof. induction x as [|c x IH]; simpl; [reflexivity|now rewrite IH]. Qed.

Lemma lower_append (x y : string) : lower (x ++ y) = lower x ++ lower y.
Proof. induction x as [|c x IH]; simpl; [reflexivity|now rewrite IH]. Qed.

Lemma substring_whole (s : string) : substring 0 (String.length s) s = s.
Proof. induction s as [|c s IH]; simpl; [reflexivity|now rewrite IH]. Qed.

Lemma substring_skip (x y : string) (m : nat) :
  substring (String.length x) m (x ++ y) = substring 0 m y.
Proof. induction x as [|c x IH]; simpl; [reflexivity|exact IH]. Qed.

Lemma split_at (k : nat) :
  forall s, (k <= String.length s)%nat ->
            s = substring 0 k s ++ substring k (String.length s - k) s.
Proof.
  induction k as [|k IH]; intros s Hk.
  - rewrite Nat.sub_0_r, substring_whole. now destruct s.
  - destruct s as [|c s]; simpl in *; [lia|].
    f_equal. apply IH. lia.
Qed.

(** [endswith] says what it should: the suffix closes the string. *)
Lemma endswith_iff (s suffix : string) :
  endswith s suffix = true <-> exists pre, s = pre ++ suffix.
Proof.
  unfold endswith. split.
  - intros H. apply andb_true_iff in H. destruct H as [Hm He].
    apply Nat.leb_le in Hm. apply String.eqb_eq in He.
    exists (substring 0 (String.length s - String.length suffix) s).
    rewrite <- He at 2.
    rewrite (split_at (String.length s - String.length suffix) s) at 1
      by lia.
    do 2 f_equal. lia.
  - intros [pre ->]. rewrite length_append.
    apply andb_true_iff. split; [apply Nat.leb_le; lia|].
    apply String.eqb_eq.
    replace (String.length pre + String.length suffix
             - String.length suffix)%nat
      with (String.length pre) by lia.
    rewrite substring_skip. apply substring_whole.
Qed.

Lemma endswith_append (pre s suffix : string) :
  endswith s suffix = true -> endswith (pre ++ s) suffix = true.
Proof.
  intros H. apply endswith_iff in H. destruct H as [q ->].
  apply endswith_iff. exists (pre ++ q). now rewrite append_assoc.
Qed.

Lemma endswith_any_append (pre s : string) (suffixes : list string) :
  endswith_any s suffixes = true ->
  endswith_any (pre ++ s) suffixes = true.
Proof.
  unfold endswith_any. intros H. apply existsb_exists in H.
  destruct H as [x [Hx He]]. apply existsb_exists. exists x.
  split; [exact Hx|]. now apply endswith_append.
Qed.

Lemma drop_is_suffix (n : nat) :
  forall s, exists pre, s = pre ++ drop n s.
Proof.
  induction n as [|n IH]; intros s.
  - exists "". reflexivity.
  - destruct s as [|c s]; simpl.
    + exists "". reflexivity.
    + destruct (IH s) as [pre E]. exists (String c pre). simpl.
      now rewrite <- E.
Qed.

Lemma drop_append (x y : string) (n : nat) :
  drop (String.length x + n) (x ++ y) = drop n y.
Proof. induction x as [|c x IH]; simpl; [reflexivity|exact IH]. Qed.

Lemma rfind_append (c : ascii) (x y : string) :
  rfind c (x ++ y) =
  match rfind c y with
  | Some i => Some (String.length x + i)%nat
  | None => rfind c x
  end.
Proof.
  induction x as [|d x IH]; simpl.
  - now destruct (rfind c y).
  - rewrite IH. now destruct (rfind c y).
Qed.

Lemma basename_is_suffix (p : string) : exists pre, p = pre ++ basename p.
Proof.
  unfold basename. destruct (rfind "/" p).
  - apply drop_is_suffix.
  - exists "". reflexivity.
Qed.

(** Behind a directory part that is empty or closed by a separator, the
    base name lies within what follows. *)
Lemma basename_behind_dir (a f : string) :
  a = "" \/ endswith a "/" = true ->
  exists pre, f = pre ++ basename (a ++ f).
Proof.
  intros Ha. unfold basename. rewrite rfind_append.
  destruct (rfind "/" f) as [i|] eqn:Hf.
  - replace (S (String.length a + i)) with (String.length a + S i)%nat
      by lia.
    rewrite drop_append. apply drop_is_suffix.
  - destruct Ha as [->|Ha].
    + simpl. exists "". reflexivity.
    + apply endswith_iff in Ha. destruct Ha as [q ->].
      rewrite rfind_append. cbn [rfind Ascii.eqb Bool.eqb].
      replace (S (String.length q + 0))
        with (String.length (q ++ "/") + 0)%nat
        by (rewrite length_append; simpl; lia).
      rewrite drop_append. exists "". reflexivity.
Qed.

(** The base name of [os.path.join(a, f)] is a closing part of [f]. *)
Lemma basename_join (a f : string) :
  exists pre, f = pre ++ basename (join a f).
Proof.
  unfold join. destruct (startswith_sep f).
  - apply basename_is_suffix.
  - destruct (String.eqb a "" || endswith a "/") eqn:Ha.
    + apply basename_behind_dir. apply orb_true_iff in Ha.
      destruct Ha as [Ha|Ha]; [left; now apply String.eqb_eq|now right].
    + rewrite <- append_assoc. apply basename_behind_dir. right.
      apply endswith_iff. exists a. reflexivity.
Qed.

End PathFacts.

(** ** The download completion detector *)

Section DetectorFacts.
Import PyStr Posix PySet Detector.
Local Open Scope Z_scope.

Variable w : world.
Variable download_dir : string.
Variable initial_files : list string.

(** *** Sets and sorting *)

Lemma in_of_list (f : string) (l : list string) :
  In f (of_list l) -> In f l.
Proof.
  induction l as [|g l IH]; simpl; [tauto|].
  intros [->|H]; [auto|]. apply filter_In in H. right. tauto.
Qed.

Lemma in_diff (f : string) (a b : list string) :
  In f (diff a b) -> In f a /\ in_set f b = false.
Proof.
  unfold diff. intros H. apply filter_In in H. destruct H as [Ha Hb].
  split; [exact Ha|]. now apply negb_true_iff in Hb.
Qed.

Lemma in_new_completed_files (f : string) (current : list string) :
  In f (new_completed_files current initial_files) ->
  In f current /\ in_set f initial_files = false /\ is_partial f = false.
Proof.
  unfold new_completed_files. intros H. apply filter_In in H.
  destruct H as [Hd Hp]. apply in_diff in Hd. apply negb_true_iff in Hp.
  tauto.
Qed.

Lemma in_candidates_with_mtime (now : Z) (files : list string)
      (x : string * Z) :
  In x (candidates_with_mtime w download_dir now files) ->
  exists f, In f files /\ fst x = join download_dir f.
Proof.
  induction files as [|f files IH]; simpl; [tauto|].
  destruct (getmtime w now (join download_dir f)).
  - intros [<-|H].
    + exists f; auto.
    + destruct (IH H) as [g [Hg E]]. exists g; auto.
  - intros H. destruct (IH H) as [g [Hg E]]. exists g; auto.
Qed.

Lemma in_insert_desc (x y : string * Z) (l : list (string * Z)) :
  In y (insert_desc x l) -> y = x \/ In y l.
Proof.
  induction l as [|z l IH]; simpl.
  - intros [<-|[]]; auto.
  - destruct (snd z <=? snd x); simpl.
    + intros [<-|H]; auto.
    + intros [<-|H]; [auto|]. destruct (IH H); auto.
Qed.

Lemma in_sort_by_mtime_desc (y : string * Z) (l : list (string * Z)) :
  In y (sort_by_mtime_desc l) -> In y l.
Proof.
  unfold sort_by_mtime_desc. induction l as [|x l IH]; simpl; [tauto|].
  intros H. apply in_insert_desc in H. destruct H as [->|H]; auto.
Qed.

(** *** Scanning *)

Lemma top_candidate (now : Z) (completed : list string) (p : string) :
  match sort_by_mtime_desc
          (candidates_with_mtime w download_dir now completed) with
  | [] => NoReadableCandidate
  | (q, _) :: _ => Candidate q
  end = Candidate p ->
  exists f, In f completed /\ p = join download_dir f.
Proof.
  remember (sort_by_mtime_desc
              (candidates_with_mtime w download_dir now completed))
    as sorted eqn:Hs.
  destruct sorted as [|[q m] rest]; [discriminate|].
  intros E; injection E as ->.
  assert (Hin : In (p, m) ((p, m) :: rest)) by (left; reflexivity).
  rewrite Hs in Hin.
  apply in_sort_by_mtime_desc, in_candidates_with_mtime in Hin.
  exact Hin.
Qed.

(** A selected candidate is the join of the polled directory with a name
    that the listing of this very pass shows, that the baseline lacks and
    that carries no in-progress suffix. *)
Lemma scan_candidate (now : Z) (p : string) :
  scan w download_dir initial_files now = Candidate p ->
  exists f l,
    p = join download_dir f
    /\ path_exists w now download_dir = true
    /\ listdir w now download_dir = Some l
    /\ In f l
    /\ in_set f initial_files = false
    /\ is_partial f = false.
Proof.
  unfold scan, current_files.
  destruct (path_exists w now download_dir) eqn:He.
  - destruct (listdir w now download_dir) as [l|] eqn:Hl;
      cbn [option_map]; [|discriminate].
    destruct (new_completed_files (of_list l) initial_files)
      as [|f0 fs] eqn:Hn; [discriminate|].
    intros E. apply top_candidate in E. destruct E as [f [Hf E]].
    rewrite <- Hn in Hf. apply in_new_completed_files in Hf.
    destruct Hf as [Hc [Hi Hp]]. apply in_of_list in Hc.
    exists f, l. auto 10.
  - discriminate.
Qed.

(** A pass that sees no new file without an in-progress suffix selects
    nothing. *)
Lemma scan_no_new_file (now : Z) :
  (path_exists w now download_dir = true ->
   exists l, listdir w now download_dir = Some l
             /\ forall f, In f l -> in_set f initial_files = false ->
                          is_partial f = true) ->
  scan w download_dir initial_files now = NoNewFile.
Proof.
  unfold scan, current_files. intros H.
  destruct (path_exists w now download_dir); [|reflexivity].
  destruct (H eq_refl) as [l [-> Hl]]. simpl.
  destruct (new_completed_files (of_list l) initial_files)
    as [|f fs] eqn:Hn; [reflexivity|].
  assert (Hf : In f (new_completed_files (of_list l) initial_files))
    by (rewrite Hn; left; reflexivity).
  apply in_new_completed_files in Hf. destruct Hf as [Hc [Hi Hp]].
  apply in_of_list in Hc. rewrite (Hl f Hc Hi) in Hp. discriminate.
Qed.

(** *** Stability checking *)

Lemma stability_some (p : string) (start : Z) (attempts : nat) :
  forall stable last now q r,
    stable_run w p start stable last now ->
    stability w p attempts stable last now = (Some q, r) ->
    q = p /\ now <= r /\ r < now + Z.of_nat attempts /\ start <= r - 4
    /\ exists s, (0 < s)%N /\ forall k, 0 <= k <= 4 ->
                                     getsize w (r - k) p = Some s.
Proof.
  induction attempts as [|n IH]; intros stable last now q r Hinv;
    [discriminate|].
  destruct Hinv as (H0 & Hst & Hpos & Hread).
  cbn [stability].
  destruct (getsize w now p) as [size|] eqn:Hsz.
  - cbv zeta.
    destruct ((0 <? Z.of_N size) && (Z.of_N size =? last)) eqn:Hc.
    + apply andb_true_iff in Hc. destruct Hc as [Hc1 Hc2].
      apply Z.ltb_lt in Hc1. apply Z.eqb_eq in Hc2.
      assert (Hsame : forall k, 0 <= k <= stable ->
                 getsize w (now - k) p = Some size).
      { intros k Hk. destruct (Z.eq_dec k 0) as [->|Hk0].
        - rewrite Z.sub_0_r. exact Hsz.
        - assert (Hr := Hread k ltac:(lia)).
          destruct (getsize w (now - k) p) as [s'|]; [|discriminate].
          simpl in Hr. injection Hr as Hr. f_equal. lia. }
      destruct (5 <=? stable + 1) eqn:H5.
      * apply Z.leb_le in H5. intros E; injection E as <- <-.
        repeat split; try lia.
        exists size. split; [lia|]. intros k Hk. apply Hsame. lia.
      * apply Z.leb_gt in H5. intros E.
        apply IH in E.
        -- destruct E as (E1 & E2 & E3 & E4 & E5).
           repeat split; auto; lia.
        -- repeat split; try lia.
           intros k Hk.
           replace (now + 1 - k) with (now - (k - 1)) by lia.
           rewrite Hsame by lia. simpl. f_equal. exact Hc2.
    + destruct (0 <=? Z.of_N size) eqn:Hnn;
        [|apply Z.leb_gt in Hnn; lia].
      intros E. apply IH in E.
      * destruct E as (E1 & E2 & E3 & E4 & E5).
        repeat split; auto; lia.
      * destruct (0 <? Z.of_N size) eqn:Hp.
        -- apply Z.ltb_lt in Hp. repeat split; try lia.
           intros k Hk. replace k with 1 by lia.
           replace (now + 1 - 1) with now by lia. now rewrite Hsz.
        -- repeat split; try lia.
  - intros E. apply IH in E.
    + destruct E as (E1 & E2 & E3 & E4 & E5). repeat split; auto; lia.
    + repeat split; try lia.
Qed.

Lemma stability_none (p : string) (attempts : nat) :
  forall stable last now r,
    stability w p attempts stable last now = (None, r) ->
    r = now + Z.of_nat attempts.
Proof.
  induction attempts as [|n IH]; intros stable last now r.
  - cbn [stability]. intros E; injection E as <-. lia.
  - cbn [stability].
    destruct (getsize w now p) as [size|]; cbv zeta.
    + destruct ((0 <? Z.of_N size) && (Z.of_N size =? last)).
      * destruct (5 <=? stable + 1); [discriminate|].
        intros E. apply IH in E. lia.
      * destruct (0 <=? Z.of_N size); intros E; apply IH in E; lia.
    + intros E. apply IH in E. lia.
Qed.

Lemma stable_run_initial (p : string) (now : Z) :
  stable_run w p now 0 (-1) now.
Proof. unfold stable_run. repeat split; lia. Qed.

(** *** The polling loop *)

Variable timeout_start timeout : Z.

(** The loop is unfolded often enough: with more fuel than seconds left,
    the bound of the embedding is not what ends it. *)
Lemma polling_fuel (fuel : nat) :
  forall now,
    (Z.to_nat (timeout_start + timeout - now) < fuel)%nat ->
    fst (polling w download_dir initial_files timeout_start timeout
                 fuel now) <> OutOfFuel.
Proof.
  induction fuel as [|fuel IH]; intros now Hf; [lia|].
  cbn [polling].
  destruct (now - timeout_start <? timeout) eqn:Hc; [|discriminate].
  apply Z.ltb_lt in Hc.
  destruct (scan w download_dir initial_files now).
  - discriminate.
  - apply IH. lia.
  - apply IH. lia.
  - destruct (stability w downloaded_file_path 25 0 (-1) now).
    discriminate.
Qed.

(** A returned path was selected by one pass of the scan, at an instant
    when the timeout had not elapsed, and went through the stability
    check started at that instant. *)
Lemma polling_some (fuel : nat) :
  forall now p r,
    polling w download_dir initial_files timeout_start timeout fuel now
    = (Returned (Some p), r) ->
    exists t,
      now <= t /\ t - timeout_start < timeout
      /\ scan w download_dir initial_files t = Candidate p
      /\ stability w p 25 0 (-1) t = (Some p, r).
Proof.
  induction fuel as [|fuel IH]; intros now p r; [discriminate|].
  cbn [polling].
  destruct (now - timeout_start <? timeout) eqn:Hc; [|discriminate].
  apply Z.ltb_lt in Hc.
  destruct (scan w download_dir initial_files now) as [| | |q] eqn:Hs.
  - discriminate.
  - intros E. destruct (IH _ _ _ E) as [t Ht]. exists t.
    repeat split; try tauto; lia.
  - intros E. destruct (IH _ _ _ E) as [t Ht]. exists t.
    repeat split; try tauto; lia.
  - destruct (stability w q 25 0 (-1) now) as [x t] eqn:Hst.
    intros E; injection E as -> ->.
    destruct (stability_some q now 25 0 (-1) now p r
                             (stable_run_initial q now) Hst) as [-> _].
    exists now. repeat split; auto; lia.
Qed.

(** While nothing new shows up the loop sleeps two seconds at a time and
    leaves through the timeout test. *)
Lemma polling_idle (fuel : nat) :
  forall now,
    (forall t, now <= t ->
               scan w download_dir initial_files t = NoNewFile) ->
    (Z.to_nat (timeout_start + timeout - now) < fuel)%nat ->
    exists r,
      polling w download_dir initial_files timeout_start timeout fuel now
      = (Returned None, r)
      /\ now <= r
      /\ timeout_start + timeout <= r
      /\ (r = now \/ r < timeout_start + timeout + 2).
Proof.
  induction fuel as [|fuel IH]; intros now Hidle Hf; [lia|].
  cbn [polling].
  destruct (now - timeout_start <? timeout) eqn:Hc.
  - apply Z.ltb_lt in Hc. rewrite (Hidle now) by lia.
    destruct (IH (now + 2)) as [r (E & H1 & H2 & H3)].
    + intros t Ht. apply Hidle. lia.
    + lia.
    + exists r. repeat split; auto; lia.
  - apply Z.ltb_ge in Hc. exists now. repeat split; auto; lia.
Qed.

(** Beyond the seconds left, the amount of fuel does not matter. *)
Lemma polling_fuel_irrelevant (fuel : nat) :
  forall fuel' now,
    (Z.to_nat (timeout_start + timeout - now) < fuel)%nat ->
    (Z.to_nat (timeout_start + timeout - now) < fuel')%nat ->
    polling w download_dir initial_files timeout_start timeout fuel now
    = polling w download_dir initial_files timeout_start timeout fuel' now.
Proof.
  induction fuel as [|fuel IH]; intros fuel' now Hf Hf'; [lia|].
  destruct fuel' as [|fuel']; [lia|].
  cbn [polling].
  destruct (now - timeout_start <? timeout) eqn:Hc; [|reflexivity].
  apply Z.ltb_lt in Hc.
  destruct (scan w download_dir initial_files now); try reflexivity;
    apply IH; lia.
Qed.

(** From an instant at which the loop starts a pass, the loop run with
    enough fuel ends as the whole call does. *)
Lemma scanning_polling (now : Z) :
  scanning w download_dir initial_files timeout timeout_start now ->
  timeout_start <= now
  /\ forall fuel,
      (Z.to_nat (timeout_start + timeout - now) < fuel)%nat ->
      polling w download_dir initial_files timeout_start timeout fuel now
      = wait_for_download_completion w download_dir initial_files
                                     timeout timeout_start.
Proof.
  induction 1 as [|now Hr [IH0 IH] Hc Hs|now Hr [IH0 IH] Hc Hs].
  - split; [lia|]. intros fuel Hf. unfold wait_for_download_completion.
    apply polling_fuel_irrelevant; lia.
  - split; [lia|]. intros fuel Hf.
    rewrite <- (IH (S (Z.to_nat (timeout_start + timeout - now)))) by lia.
    cbn [polling]. apply Z.ltb_lt in Hc. rewrite Hc, Hs.
    apply polling_fuel_irrelevant; lia.
  - split; [lia|]. intros fuel Hf.
    rewrite <- (IH (S (Z.to_nat (timeout_start + timeout - now)))) by lia.
    cbn [polling]. apply Z.ltb_lt in Hc. rewrite Hc, Hs.
    apply polling_fuel_irrelevant; lia.
Qed.

(** A pass that selects a candidate hands the call over to the stability
    check of that candidate. *)
Lemma scanning_candidate (now : Z) (p : string) :
  scanning w download_dir initial_files timeout timeout_start now ->
  now - timeout_start < timeout ->
  scan w download_dir initial_files now = Candidate p ->
  wait_for_download_completion w download_dir initial_files
                               timeout timeout_start
  = (Returned (fst (stability w p 25 0 (-1) now)),
     snd (stability w p 25 0 (-1) now)).
Proof.
  intros Hr Hc Hs. destruct (scanning_polling now Hr) as [_ H].
  rewrite <- (H (S (Z.to_nat (timeout_start + timeout - now)))) by lia.
  cbn [polling]. apply Z.ltb_lt in Hc. rewrite Hc, Hs.
  now destruct (stability w p 25 0 (-1) now).
Qed.

(** Once the size read is [s] at every tick, the count climbs to five. *)
Lemma stability_climbs (p : string) (s : N) (m : nat) :
  forall attempts stable now,
    (0 < s)%N ->
    (forall k, 0 <= k < Z.of_nat m -> getsize w (now + k) p = Some s) ->
    (1 <= m <= attempts)%nat ->
    5 <= stable + Z.of_nat m ->
    exists r,
      stability w p attempts stable (Z.of_N s) now = (Some p, r)
      /\ now <= r < now + Z.of_nat m.
Proof.
  induction m as [|m IH]; intros attempts stable now Hs Hread Hm H5; [lia|].
  destruct attempts as [|attempts]; [lia|].
  assert (Hnow : getsize w now p = Some s).
  { specialize (Hread 0 ltac:(lia)). now rewrite Z.add_0_r in Hread. }
  cbn [stability]. rewrite Hnow. cbv zeta. rewrite Z.eqb_refl.
  replace (0 <? Z.of_N s) with true by (symmetry; apply Z.ltb_lt; lia).
  cbn [andb].
  destruct (5 <=? stable + 1) eqn:E.
  - exists now. split; [reflexivity|lia].
  - apply Z.leb_gt in E.
    destruct (IH attempts (stable + 1) (now + 1)) as [r [Hr Hb]];
      try lia.
    + intros k Hk. replace (now + 1 + k) with (now + (k + 1)) by lia.
      apply Hread. lia.
    + exists r. split; [exact Hr|lia].
Qed.

(** Five equal non-zero readings in a row, starting [i] ticks into the
    stability check and within its 25 ticks, make it return the path by
    the fifth of them. *)
Lemma stability_reaches_threshold (p : string) (s : N) (i : nat) :
  forall attempts stable last now,
    (0 < s)%N ->
    (forall k, 0 <= k < 5 ->
               getsize w (now + Z.of_nat i + k) p = Some s) ->
    (i + 5 <= attempts)%nat ->
    0 <= stable ->
    exists r,
      stability w p attempts stable last now = (Some p, r)
      /\ now <= r <= now + Z.of_nat i + 4.
Proof.
  induction i as [|i IH]; intros attempts stable last now Hs Hread Ha H0.
  - destruct attempts as [|attempts]; [lia|].
    cbn [stability].
    assert (Hnow : getsize w now p = Some s).
    { specialize (Hread 0 ltac:(lia)).
      now replace (now + Z.of_nat 0 + 0) with now in Hread by lia. }
    rewrite Hnow. cbv zeta.
    replace (0 <? Z.of_N s) with true by (symmetry; apply Z.ltb_lt; lia).
    replace (0 <=? Z.of_N s) with true by (symmetry; apply Z.leb_le; lia).
    cbn [andb].
    destruct (Z.of_N s =? last) eqn:El.
    + apply Z.eqb_eq in El. subst last.
      destruct (5 <=? stable + 1) eqn:E.
      * exists now. split; [reflexivity|lia].
      * apply Z.leb_gt in E.
        destruct (stability_climbs p s 4 attempts (stable + 1) (now + 1))
          as [r [Hr Hb]]; try lia.
        -- intros k Hk.
           replace (now + 1 + k) with (now + Z.of_nat 0 + (k + 1)) by lia.
           apply Hread. lia.
        -- exists r. split; [exact Hr|lia].
    + destruct (stability_climbs p s 4 attempts 1 (now + 1))
        as [r [Hr Hb]]; try lia.
      * intros k Hk.
        replace (now + 1 + k) with (now + Z.of_nat 0 + (k + 1)) by lia.
        apply Hread. lia.
      * exists r. split; [exact Hr|lia].
  - destruct attempts as [|attempts]; [lia|].
    assert (Hnext : forall stable' last',
               0 <= stable' ->
               exists r,
                 stability w p attempts stable' last' (now + 1)
                 = (Some p, r)
                 /\ now <= r <= now + Z.of_nat (S i) + 4).
    { intros stable' last' H0'.
      destruct (IH attempts stable' last' (now + 1)) as [r [Hr Hb]];
        try lia.
      - intros k Hk.
        replace (now + 1 + Z.of_nat i + k)
          with (now + Z.of_nat (S i) + k) by lia.
        now apply Hread.
      - exists r. split; [exact Hr|lia]. }
    cbn [stability].
    destruct (getsize w now p) as [size|]; cbv zeta.
    + destruct ((0 <? Z.of_N size) && (Z.of_N size =? last)).
      * destruct (5 <=? stable + 1).
        -- exists now. split; [reflexivity|lia].
        -- apply Hnext. lia.
      * destruct (0 <=? Z.of_N size).
        -- apply Hnext. destruct (0 <? Z.of_N size); lia.
        -- apply Hnext. lia.
    + apply Hnext. lia.
Qed.

End DetectorFacts.

Section DetectorClaims.
Import PyStr Posix PySet Detector Scenarios.
Local Open Scope Z_scope.

Variable w : world.
Variable download_dir : string.
Variable initial_files : list string.
Variable timeout clock : Z.

Lemma in_set_false (f : string) (s : list string) :
  in_set f s = false -> ~ In f s.
Proof.
  unfold in_set. intros H Hin.
  assert (E : existsb (String.eqb f) s = true).
  { apply existsb_exists. exists f. split; [exact Hin|].
    apply String.eqb_refl. }
  congruence.
Qed.

Lemma not_in_set (f : string) (s : list string) :
  ~ In f s -> in_set f s = false.
Proof.
  unfold in_set. intros H. destruct (existsb (String.eqb f) s) eqn:E;
    [|reflexivity].
  apply existsb_exists in E. destruct E as [g [Hg E]].
  apply String.eqb_eq in E. subst g. contradiction.
Qed.

(** The call always ends by returning or raising: the unfolding bound of
    the embedding is never what ends it. *)
Theorem wait_for_download_completion_total :
  fst (wait_for_download_completion w download_dir initial_files
                                    timeout clock) <> OutOfFuel.
Proof.
  unfold wait_for_download_completion. apply polling_fuel. lia.
Qed.

(** C1 (amended): if the polled directory, whenever it exists, can be
    listed, and no new file without a recognized in-progress suffix ever
    shows up in it, the call returns [None] (it does not raise), and it
    returns less than one scanning poll interval (two seconds) after the
    timeout has elapsed. *)
Theorem wait_times_out_without_new_file :
  (forall t, clock <= t ->
     path_exists w t download_dir = true ->
     exists l, listdir w t download_dir = Some l
               /\ forall f, In f l -> ~ In f initial_files ->
                            is_partial f = true) ->
  exists r,
    wait_for_download_completion w download_dir initial_files timeout clock
    = (Returned None, r)
    /\ r - clock < Z.max 0 timeout + 2.
Proof.
  intros H. unfold wait_for_download_completion.
  destruct (polling_idle w download_dir initial_files clock timeout
                         (S (Z.to_nat timeout)) clock)
    as [r (E & H1 & H2 & H3)].
  - intros t Ht. apply scan_no_new_file. intros He.
    destruct (H t Ht He) as [l [Hl Hp]]. exists l. split; [exact Hl|].
    intros f Hf Hi. apply Hp; [exact Hf|]. now apply in_set_false.
  - lia.
  - exists r. split; [exact E|]. lia.
Qed.

(** C9: if the polled directory does not exist, every poll sees an empty
    listing, nothing is raised, and the call returns [None] once the
    timeout has elapsed (and less than two seconds after it). *)
Theorem wait_on_missing_directory :
  (forall t, clock <= t -> path_exists w t download_dir = false) ->
  (forall t, clock <= t -> current_files w download_dir t = Some [])
  /\ exists r,
      wait_for_download_completion w download_dir initial_files
                                   timeout clock
      = (Returned None, r)
      /\ clock + timeout <= r
      /\ r - clock < Z.max 0 timeout + 2.
Proof.
  intros H. split.
  - intros t Ht. unfold current_files. now rewrite H.
  - unfold wait_for_download_completion.
    destruct (polling_idle w download_dir initial_files clock timeout
                           (S (Z.to_nat timeout)) clock)
      as [r (E & H1 & H2 & H3)].
    + intros t Ht. apply scan_no_new_file. rewrite H by exact Ht.
      discriminate.
    + lia.
    + exists r. repeat split; auto; lia.
Qed.

(** C10: every path the call returns is the join of [download_dir] with a
    name that a listing taken during the call shows and that the baseline
    [initial_files] lacks. *)
Theorem wait_result_is_new_listed_file (p : string) (r : Z) :
  wait_for_download_completion w download_dir initial_files timeout clock
  = (Returned (Some p), r) ->
  exists f t l,
    p = join download_dir f
    /\ clock <= t <= r
    /\ path_exists w t download_dir = true
    /\ listdir w t download_dir = Some l
    /\ In f l
    /\ ~ In f initial_files.
Proof.
  unfold wait_for_download_completion. intros E.
  apply polling_some in E. destruct E as [t (Ht & Hc & Hs & Hst)].
  apply scan_candidate in Hs.
  destruct Hs as [f [l (Hp & He & Hl & Hf & Hi & _)]].
  apply (stability_some w p t) in Hst; [|apply stable_run_initial].
  exists f, t, l. repeat split; auto; try lia.
  now apply in_set_false.
Qed.

(** C3: the call never returns a path whose file name ends, whatever the
    case of its letters, in one of the in-progress suffixes
    [.crdownload], [.part], [.tmp], [.torrent], [.download],
    [.inprogress]: the returned path is the join of [download_dir] with a
    listed name that passed the suffix filter, and its base name carries
    none of the suffixes. *)
Theorem wait_never_returns_partial (p : string) (r : Z) :
  wait_for_download_completion w download_dir initial_files timeout clock
  = (Returned (Some p), r) ->
  (exists f, p = join download_dir f /\ is_partial f = false)
  /\ forall ext, In ext partial_extensions ->
                 endswith (lower (basename p)) ext = false.
Proof.
  unfold wait_for_download_completion. intros E.
  apply polling_some in E. destruct E as [t (_ & _ & Hs & _)].
  apply scan_candidate in Hs.
  destruct Hs as [f [l (Hp & _ & _ & _ & _ & Hf)]].
  split; [exists f; auto|].
  intros ext Hext.
  destruct (endswith (lower (basename p)) ext) eqn:He; [|reflexivity].
  destruct (basename_join download_dir f) as [pre Hpre].
  rewrite <- Hp in Hpre.
  assert (Hc : is_partial f = true).
  { unfold is_partial, endswith_any. apply existsb_exists. exists ext.
    split; [exact Hext|]. rewrite Hpre, lower_append.
    now apply endswith_append. }
  congruence.
Qed.

(** C2 (amended): the call returns a path only after five consecutive
    readings of one and the same non-zero size of that file, taken at
    one-second ticks within the call: the reading at the instant of the
    return and the four before it.  So it returns no earlier than four
    seconds after the last change of the size that precedes the return. *)
Theorem wait_returns_after_five_stable_readings (p : string) (r : Z) :
  wait_for_download_completion w download_dir initial_files timeout clock
  = (Returned (Some p), r) ->
  clock <= r - 4
  /\ (exists s, (0 < s)%N
                /\ forall k, 0 <= k <= 4 -> getsize w (r - k) p = Some s)
  /\ forall c, c <= r -> getsize w (c - 1) p <> getsize w c p ->
               c + 4 <= r.
Proof.
  unfold wait_for_download_completion. intros E.
  apply polling_some in E. destruct E as [t (Ht & _ & _ & Hst)].
  apply (stability_some w p t) in Hst; [|apply stable_run_initial].
  destruct Hst as (_ & _ & _ & Hstart & s & Hs & Hread).
  split; [lia|]. split; [exists s; auto|].
  intros c Hc Hne. destruct (Z_le_gt_dec (c + 4) r) as [|Hgt]; [assumption|].
  exfalso. apply Hne.
  replace (c - 1) with (r - (r - c + 1)) by lia.
  replace c with (r - (r - c)) at 2 by lia.
  rewrite !Hread by lia. reflexivity.
Qed.

(** C7: whenever a pass of the loop, started before the timeout has
    elapsed, selects a candidate and the stability check of that candidate
    uses up its 25 ticks without reaching the threshold, the call returns
    [None], 25 seconds after the selection: it does not scan again for
    another candidate. *)
Theorem exhausted_stability_is_terminal (now : Z) (p : string) (r : Z) :
  scanning w download_dir initial_files timeout clock now ->
  now - clock < timeout ->
  scan w download_dir initial_files now = Candidate p ->
  stability w p 25 0 (-1) now = (None, r) ->
  wait_for_download_completion w download_dir initial_files timeout clock
  = (Returned None, r)
  /\ r = now + 25.
Proof.
  intros Hr Hc Hs Hst.
  rewrite (scanning_candidate w download_dir initial_files clock timeout
                              now p Hr Hc Hs), Hst.
  split; [reflexivity|]. apply stability_none in Hst. lia.
Qed.

(** What C2 leaves to be said: a candidate selected before the timeout
    whose size reads the same non-zero value at five ticks in a row, within
    the 25 ticks of its stability check, is returned, at the fifth of those
    ticks at the latest. *)
Theorem stable_candidate_is_returned
        (now : Z) (p : string) (s : N) (i : nat) :
  scanning w download_dir initial_files timeout clock now ->
  now - clock < timeout ->
  scan w download_dir initial_files now = Candidate p ->
  (0 < s)%N ->
  (i + 5 <= 25)%nat ->
  (forall k, 0 <= k < 5 -> getsize w (now + Z.of_nat i + k) p = Some s) ->
  exists r,
    wait_for_download_completion w download_dir initial_files timeout clock
    = (Returned (Some p), r)
    /\ r <= now + Z.of_nat i + 4.
Proof.
  intros Hr Hc Hs Hpos Hi Hread.
  rewrite (scanning_candidate w download_dir initial_files clock timeout
                              now p Hr Hc Hs).
  destruct (stability_reaches_threshold w p s i 25 0 (-1) now)
    as [r [E Hb]]; try assumption; try lia.
  exists r. rewrite E. split; [reflexivity|lia].
Qed.

End DetectorClaims.

(** *** The detector on concrete file systems *)

Section DetectorRuns.
Import PyStr Posix PySet Detector Scenarios.
Local Open Scope Z_scope.

Lemma wait_times_out_without_new_file_witness :
  exists r,
    wait_for_download_completion stalled "dl" ["old.txt"] 7 3
    = (Returned None, r)
    /\ r - 3 < Z.max 0 7 + 2.
Proof.
  apply (wait_times_out_without_new_file stalled "dl" ["old.txt"] 7 3).
  intros t _ _. exists ["old.txt"; "a.zip.CRDOWNLOAD"].
  split; [reflexivity|].
  intros f [<-|[<-|[]]] Hn.
  - exfalso. apply Hn. left. reflexivity.
  - reflexivity.
Defined.

Lemma wait_on_missing_directory_witness :
  (forall t, 3 <= t -> current_files missing "dl" t = Some [])
  /\ exists r,
      wait_for_download_completion missing "dl" [] 7 3 = (Returned None, r)
      /\ 3 + 7 <= r
      /\ r - 3 < Z.max 0 7 + 2.
Proof.
  apply (wait_on_missing_directory missing "dl" [] 7 3).
  intros t _. reflexivity.
Defined.

Lemma wait_result_is_new_listed_file_witness :
  exists f t l,
    "dl/a.zip" = join "dl" f
    /\ 0 <= t <= 8
    /\ path_exists growing t "dl" = true
    /\ listdir growing t "dl" = Some l
    /\ In f l
    /\ ~ In f [].
Proof.
  apply (wait_result_is_new_listed_file growing "dl" [] 180 0).
  vm_compute. reflexivity.
Defined.

Lemma wait_never_returns_partial_witness :
  (exists f, "dl/a.zip" = join "dl" f /\ is_partial f = false)
  /\ forall ext, In ext partial_extensions ->
                 endswith (lower (basename "dl/a.zip")) ext = false.
Proof.
  apply (wait_never_returns_partial growing "dl" [] 180 0 "dl/a.zip" 8).
  vm_compute. reflexivity.
Defined.

Lemma wait_returns_after_five_stable_readings_witness :
  0 <= 8 - 4
  /\ (exists s, (0 < s)%N
                /\ forall k, 0 <= k <= 4 ->
                             getsize growing (8 - k) "dl/a.zip" = Some s)
  /\ forall c, c <= 8 ->
               getsize growing (c - 1) "dl/a.zip"
               <> getsize growing c "dl/a.zip" ->
               c + 4 <= 8.
Proof.
  apply (wait_returns_after_five_stable_readings growing "dl" [] 180 0).
  vm_compute. reflexivity.
Defined.

(** C2, as the claim states it, fails: [dl/a.zip] is the only new file,
    its size changes for the last time at second 4, and the call returns
    its path at second 8, four seconds later and not five. *)
Lemma growing_returned_four_seconds_after_last_change :
  wait_for_download_completion growing "dl" [] 180 0
  = (Returned (Some "dl/a.zip"), 8)
  /\ (forall t l f, listdir growing t "dl" = Some l -> In f l ->
                    f = "a.zip")
  /\ getsize growing 3 "dl/a.zip" <> getsize growing 4 "dl/a.zip"
  /\ (forall t, 4 <= t -> getsize growing t "dl/a.zip" = Some 10%N)
  /\ ~ (4 + 5 <= 8).
Proof.
  split; [vm_compute; reflexivity|]. split; [|split; [|split]].
  - intros t l f. cbn. destruct (t <? 2).
    + intros E; injection E as <-. intros [].
    + intros E; injection E as <-. intros [<-|[]]. reflexivity.
  - discriminate.
  - intros t Ht. cbn. destruct (t <? 4) eqn:E; [|reflexivity].
    apply Z.ltb_lt in E. lia.
  - lia.
Qed.

Lemma exhausted_stability_is_terminal_witness :
  wait_for_download_completion restless "dl" [] 180 0 = (Returned None, 25)
  /\ 25 = 0 + 25.
Proof.
  apply (exhausted_stability_is_terminal restless "dl" [] 180 0
                                         0 "dl/big.zip" 25).
  - apply scanning_entry.
  - lia.
  - vm_compute. reflexivity.
  - vm_compute. reflexivity.
Defined.

(** The file passed over in that run was complete all along: with
    [big.zip] in the baseline the same call returns [small.txt]. *)
Example restless_other_candidate :
  wait_for_download_completion restless "dl" [] 180 0 = (Returned None, 25)
  /\ wait_for_download_completion restless "dl" ["big.zip"] 180 0
     = (Returned (Some "dl/small.txt"), 4).
Proof. split; vm_compute; reflexivity. Qed.

(** A partial file alone, of a size that never moves, is not returned. *)
Example stalled_partial_file_not_returned :
  wait_for_download_completion stalled "dl" ["old.txt"] 7 3
  = (Returned None, 11).
Proof. vm_compute. reflexivity. Qed.

End DetectorRuns.

(** ** Path allocation *)

Section AllocatorFacts.
Import PyStr Posix PySet Allocator.

(** What the probing loop returns does not exist when it returns. *)
Lemma probe_free (fs : filesystem) (base_temp ext_temp : string)
      (fuel : nat) :
  forall counter_temp path p,
    probe fs base_temp ext_temp fuel counter_temp path = Some p ->
    os_path_exists fs p = false.
Proof.
  induction fuel as [|fuel IH]; intros counter_temp path p; cbn [probe];
    destruct (os_path_exists fs path) eqn:He; try discriminate.
  - intros E; injection E as <-. exact He.
  - apply IH.
  - intros E; injection E as <-. exact He.
Qed.

Lemma append_cancel_l (x y z : string) : x ++ y = x ++ z -> y = z.
Proof.
  induction x as [|c x IH]; simpl; [auto|].
  intros E; injection E as E. auto.
Qed.

Lemma append_cancel_r (z : string) :
  forall x y, x ++ z = y ++ z -> x = y.
Proof.
  induction x as [|c x IH]; intros [|d y] E; simpl in E.
  - reflexivity.
  - exfalso. apply (f_equal String.length) in E. simpl in E.
    rewrite length_append in E. lia.
  - exfalso. apply (f_equal String.length) in E. simpl in E.
    rewrite length_append in E. lia.
  - injection E as -> E. f_equal. now apply IH.
Qed.

Lemma of_nat_injective (m n : nat) : of_nat m = of_nat n -> m = n.
Proof.
  unfold of_nat. intros E.
  apply (f_equal NilEmpty.uint_of_string) in E.
  rewrite !NilEmpty.usu in E. injection E as E.
  apply (f_equal Nat.of_uint) in E. now rewrite !Unsigned.of_to in E.
Qed.

(** The numbered paths the loop probes are pairwise distinct. *)
Lemma numbered_path_injective (base_temp ext_temp : string) (m n : nat) :
  base_temp ++ "_" ++ of_nat m ++ ext_temp
  = base_temp ++ "_" ++ of_nat n ++ ext_temp ->
  m = n.
Proof.
  intros E. apply append_cancel_l in E. simpl in E.
  injection E as E. apply append_cancel_r in E.
  now apply of_nat_injective.
Qed.

Lemma numbered_paths_nodup (base_temp ext_temp : string) (len : nat) :
  forall start,
    NoDup (map (fun k => base_temp ++ "_" ++ of_nat k ++ ext_temp)
               (seq start len)).
Proof.
  induction len as [|len IH]; intros start; cbn [seq map]; constructor.
  - intros H. apply in_map_iff in H. destruct H as [k [E Hk]].
    apply numbered_path_injective in E. apply in_seq in Hk. lia.
  - apply IH.
Qed.

(** A loop that gives up found every numbered path it tried in place. *)
Lemma probe_none (fs : filesystem) (base_temp ext_temp : string)
      (fuel : nat) :
  forall counter_temp path,
    probe fs base_temp ext_temp fuel counter_temp path = None ->
    forall k, In k (seq counter_temp fuel) ->
              os_path_exists fs (base_temp ++ "_" ++ of_nat k ++ ext_temp)
              = true.
Proof.
  induction fuel as [|fuel IH]; intros counter_temp path E k Hk;
    [destruct Hk|].
  cbn [probe] in E.
  destruct (os_path_exists fs path); [|discriminate].
  cbn [seq] in Hk. destruct Hk as [<-|Hk].
  - destruct fuel as [|fuel]; cbn [probe] in E;
      destruct (os_path_exists fs _) eqn:He in E;
      try discriminate; exact He.
  - exact (IH _ _ E k Hk).
Qed.

(** The allocation always returns a path, and that path does not exist
    when it is returned. *)
Theorem allocate_total (fs : filesystem)
        (destination_folder temp_filename : string) :
  exists p,
    allocate fs destination_folder temp_filename = Some p
    /\ os_path_exists fs p = false.
Proof.
  unfold allocate. destruct (splitext temp_filename) as [base ext].
  destruct (probe fs base ext (S (List.length fs)) 1
                  (join destination_folder temp_filename)) as [p|] eqn:E.
  - exists p. split; [reflexivity|]. exact (probe_free _ _ _ _ _ _ _ E).
  - exfalso.
    assert (Hincl : incl (map (fun k => base ++ "_" ++ of_nat k ++ ext)
                              (seq 1 (S (List.length fs)))) fs).
    { intros q Hq. apply in_map_iff in Hq. destruct Hq as [k [<- Hk]].
      assert (He := probe_none _ _ _ _ _ _ E k Hk).
      unfold os_path_exists, in_set in He. apply existsb_exists in He.
      destruct He as [g [Hg Heq]]. apply String.eqb_eq in Heq.
      now subst g. }
    apply NoDup_incl_length in Hincl; [|apply numbered_paths_nodup].
    rewrite length_map, length_seq in Hincl. lia.
Qed.

(** C5 fails on the code: against a directory [d] that holds [photo.jpg]
    and [photo_1.jpg], the allocation for [photo.jpg] returns the bare
    relative path [photo_1.jpg], outside [d], and not [d/photo_2.jpg]:
    the path probed after a collision is built without the directory. *)
Theorem allocate_drops_directory :
  allocate ["d/photo.jpg"; "d/photo_1.jpg"] "d" "photo.jpg"
  = Some "photo_1.jpg"
  /\ "photo_1.jpg" <> join "d" "photo_2.jpg".
Proof. split; [reflexivity|discriminate]. Qed.

(** The same allocation with the working directory as target, named by
    the empty string, does count up to [photo_2.jpg]. *)
Example allocate_in_working_directory :
  allocate ["photo.jpg"; "photo_1.jpg"] "" "photo.jpg"
  = Some "photo_2.jpg".
Proof. reflexivity. Qed.

End AllocatorFacts.

(** ** The directory reconciler *)

Section ReconcilerFacts.
Import PyStr Posix PySet Reconciler RecordStates.

Lemma rfind_after_last (c : ascii) (s : string) :
  forall i, rfind c s = Some i -> rfind c (drop (S i) s) = None.
Proof.
  induction s as [|d s IH]; intros i; cbn [rfind]; [discriminate|].
  destruct (rfind c s) as [j|] eqn:Hj.
  - intros E; injection E as <-. cbn [drop]. now apply IH.
  - destruct (Ascii.eqb c d); [|discriminate].
    intros E; injection E as <-. cbn [drop]. exact Hj.
Qed.

Lemma basename_plain (p : string) : rfind "/" (basename p) = None.
Proof.
  unfold basename. destruct (rfind "/" p) as [i|] eqn:Hp.
  - now apply rfind_after_last.
  - exact Hp.
Qed.

Lemma plain_not_absolute (f : string) :
  rfind "/" f = None -> startswith_sep f = false.
Proof.
  destruct f as [|c f]; [reflexivity|]. cbn [rfind startswith_sep].
  destruct (rfind "/" f); [discriminate|].
  rewrite Ascii.eqb_sym. now destruct (Ascii.eqb c "/").
Qed.

Lemma basename_behind_dir_plain (a f : string) :
  a = "" \/ endswith a "/" = true ->
  rfind "/" f = None -> basename (a ++ f) = f.
Proof.
  intros Ha Hf. unfold basename. rewrite rfind_append, Hf.
  destruct Ha as [->|Ha].
  - reflexivity.
  - apply endswith_iff in Ha. destruct Ha as [q ->].
    rewrite rfind_append. cbn [rfind Ascii.eqb Bool.eqb].
    replace (S (String.length q + 0))
      with (String.length (q ++ "/") + 0)%nat
      by (rewrite length_append; simpl; lia).
    now rewrite drop_append.
Qed.

(** [os.path.basename(os.path.join(a, f))] is [f] for a name [f] without
    separator. *)
Lemma basename_join_plain (a f : string) :
  rfind "/" f = None -> basename (join a f) = f.
Proof.
  intros Hf. unfold join. rewrite (plain_not_absolute f Hf).
  destruct (String.eqb a "" || endswith a "/") eqn:Ha.
  - apply basename_behind_dir_plain; [|exact Hf].
    apply orb_true_iff in Ha.
    destruct Ha as [Ha|Ha]; [left; now apply String.eqb_eq|now right].
  - rewrite <- append_assoc. apply basename_behind_dir_plain; [|exact Hf].
    right. apply endswith_iff. exists a. reflexivity.
Qed.

(** Rewriting recorded paths a second time changes nothing. *)
Lemma rewrite_paths_idempotent (destination : string) (paths : list string) :
  rewrite_paths destination (rewrite_paths destination paths)
  = rewrite_paths destination paths.
Proof.
  unfold rewrite_paths. rewrite map_map. apply map_ext. intros p.
  now rewrite basename_join_plain by apply basename_plain.
Qed.

Lemma rewrite_details_idempotent (l : layout) (d : details) :
  rewrite_details l (rewrite_details l d) = rewrite_details l d.
Proof.
  unfold rewrite_details.
  cbn [title description images grams tags url
       downloaded_filepaths downloaded_image_filepaths].
  now rewrite !rewrite_paths_idempotent.
Qed.

Lemma in_set_iff (f : string) (s : list string) :
  PySet.in_set f s = true <-> In f s.
Proof.
  unfold in_set. rewrite existsb_exists. split.
  - intros [g [Hg E]]. apply String.eqb_eq in E. now subst g.
  - intros H. exists f. split; [exact H|apply String.eqb_refl].
Qed.

Lemma move_contents_nothing (os_fails : string -> bool) (src_dir : string)
      (src : option (list string)) (dst : list string) :
  nothing_to_move src ->
  move_contents os_fails src_dir src dst = (true, (src, dst)).
Proof. intros [->| ->]; reflexivity. Qed.


Lemma move_and_rewrite_nothing
      (os_fails : string -> bool) (l : layout) (t : tree) (d : details) :
  nothing_to_move (temp_images t) ->
  nothing_to_move (temp_files t) ->
  move_and_rewrite os_fails l t d = Completed t (rewrite_details l d).
Proof.
  intros Hi Hf. unfold move_and_rewrite.
  rewrite (move_contents_nothing _ _ _ _ Hi).
  rewrite (move_contents_nothing _ _ _ _ Hf).
  now destruct t.
Qed.

Lemma names_entries_of_nothing (dir : string) (src : option (list string))
      (paths : list string) :
  nothing_to_move src -> names_entries_of dir src paths -> paths = [].
Proof.
  intros Hn H. destruct paths as [|p paths]; [reflexivity|].
  destruct (H p (or_introl eq_refl)) as [x [Hx _]].
  destruct Hn as [->| ->]; destruct Hx.
Qed.

Lemma rewrite_details_recorded (l : layout) (t : tree) (d : details) :
  nothing_to_move (temp_images t) ->
  nothing_to_move (temp_files t) ->
  recorded l t d -> rewrite_details l d = d.
Proof.
  intros Hi Hf [Hfiles Himages].
  apply (names_entries_of_nothing _ _ _ Hf) in Hfiles.
  apply (names_entries_of_nothing _ _ _ Hi) in Himages.
  destruct d. cbn in Hfiles, Himages. subst. reflexivity.
Qed.

(** C8: relocation is a no-op on an empty source.  With nothing to move in
    either temporary directory, Step 4 leaves all four directories as they
    are and returns the record unchanged, for a record as the program
    holds it there: one whose paths name entries of the temporary
    directories, or one that an earlier run of Step 4 returned. *)
Theorem relocation_of_empty_source
        (os_fails : string -> bool) (l : layout) (t : tree) (d : details) :
  nothing_to_move (temp_images t) ->
  nothing_to_move (temp_files t) ->
  recorded l t d \/ relocated l d ->
  move_and_rewrite os_fails l t d = Completed t d.
Proof.
  intros Hi Hf Hd. rewrite (move_and_rewrite_nothing _ _ _ _ Hi Hf).
  f_equal. destruct Hd as [Hr|[d0 ->]].
  - exact (rewrite_details_recorded l t d Hi Hf Hr).
  - apply rewrite_details_idempotent.
Qed.

End ReconcilerFacts.

(** *** The reconciler on concrete directories *)

Section ReconcilerRuns.
Import PyStr Posix PySet Reconciler RecordStates Scenarios.



Lemma relocation_of_empty_source_witness :
  move_and_rewrite no_os_failure model_layout emptied
    (rewrite_details model_layout
       (record_of ["out/1_temp_model_folder/files/a.stl"]))
  = Completed emptied
      (rewrite_details model_layout
         (record_of ["out/1_temp_model_folder/files/a.stl"])).
Proof.
  apply (relocation_of_empty_source no_os_failure model_layout emptied).
  - right. reflexivity.
  - right. reflexivity.
  - right. exists (record_of ["out/1_temp_model_folder/files/a.stl"]).
    reflexivity.
Defined.

(** A record that names nothing, with nothing to move, comes back as it
    is. *)
Example relocation_of_empty_record :
  move_and_rewrite no_os_failure model_layout emptied (record_of [])
  = Completed emptied (record_of []).
Proof. reflexivity. Qed.

(** A move that the operating system refuses is not caught by Step 4:
    the step is left at once, with [a.stl] moved and [b.stl] still in the
    temporary directory, and the record is not rewritten. *)
Example os_failure_leaves_step4 :
  exists t,
    move_and_rewrite
      (fun p => String.eqb p "out/1_temp_model_folder/files/b.stl")
      model_layout
      {| temp_images := Some []; final_images := [];
         temp_files := Some ["a.stl"; "b.stl"]; final_files := [] |}
      (record_of ["out/1_temp_model_folder/files/a.stl";
                  "out/1_temp_model_folder/files/b.stl"])
    = Aborted t
    /\ temp_files t = Some ["b.stl"]
    /\ In "a.stl" (final_files t).
Proof. eexists. split; [reflexivity|]. split; [reflexivity|now left]. Qed.

End ReconcilerRuns.

(** * Further properties *)

(** ** The sanitizer: alphabet, length, ends, idempotence *)

Section SanitizerMore.
Import PyStr Sanitizer SanitizerSteps.

Lemma length_take (n : nat) :
  forall s, (String.length (take n s) <= n)%nat.
Proof.
  unfold take. induction n as [|n IH]; intros [|c s]; simpl; try lia.
  specialize (IH s). lia.
Qed.

Lemma take_short (n : nat) :
  forall s, (String.length (take n s) < n)%nat -> take n s = s.
Proof.
  unfold take. induction n as [|n IH]; intros [|c s]; simpl; try lia;
    try reflexivity.
  intros H. f_equal. apply IH. lia.
Qed.

Lemma occurs_sub_spaces_strict (c : ascii) (s : string) (in_run : bool) :
  occurs c (sub_spaces in_run s) ->
  c = "_"%char \/ (occurs c s /\ isspace c = false).
Proof.
  unfold occurs; revert in_run; induction s as [|d s IH]; simpl; intros b;
    [tauto|].
  destruct (isspace d) eqn:Hd.
  - destruct b; simpl.
    + intros H. destruct (IH _ H) as [|[? ?]]; auto.
    + intros [<-|H]; [auto|]. destruct (IH _ H) as [|[? ?]]; auto.
  - simpl. intros [<-|H]; [auto|]. destruct (IH _ H) as [|[? ?]]; auto.
Qed.

Lemma sanitize_filename_untruncated (name : string) :
  sanitize_filename name = take 100 (untruncated name).
Proof. reflexivity. Qed.

Lemma untruncated_alphabet (name : string) (c : ascii) :
  occurs c (untruncated name) ->
  isspace c = false
  /\ (isword c = true \/ c = "."%char \/ c = "-"%char).
Proof.
  unfold untruncated. intros H.
  apply occurs_strip, occurs_sub_spaces_strict in H.
  destruct H as [->|[H Hs]]; [split; [reflexivity|left; reflexivity]|].
  apply occurs_strip, occurs_filter in H. destruct H as [Ha _].
  split; [exact Hs|]. unfold allowed in Ha. rewrite Hs in Ha.
  apply orb_true_iff in Ha. destruct Ha as [Ha|Ha].
  - apply orb_true_iff in Ha. destruct Ha as [Ha|Ha].
    + rewrite orb_false_r in Ha. auto.
    + apply Ascii.eqb_eq in Ha. auto.
  - apply Ascii.eqb_eq in Ha. auto.
Qed.

(** Every code point of a sanitized name is a letter, a digit, an
    underscore, a dot or a hyphen; none is whitespace. *)
Theorem sanitize_filename_characters (name : string) (c : ascii) :
  occurs c (sanitize_filename name) ->
  isspace c = false
  /\ (isword c = true \/ c = "."%char \/ c = "-"%char).
Proof.
  rewrite sanitize_filename_untruncated. intros H.
  apply occurs_take in H. exact (untruncated_alphabet name c H).
Qed.

(** A sanitized name has at most 100 code points. *)
Theorem sanitize_filename_length (name : string) :
  (String.length (sanitize_filename name) <= 100)%nat.
Proof. rewrite sanitize_filename_untruncated. apply length_take. Qed.

Lemma lstrip_head (p : ascii -> bool) (s : string) (c : ascii) (r : string) :
  lstrip p s = String c r -> p c = false.
Proof.
  induction s as [|d s IH]; simpl; [discriminate|].
  destruct (p d) eqn:Hd; [exact IH|].
  intros E; injection E as <- _. exact Hd.
Qed.

Lemma rstrip_head (p : ascii -> bool) (s : string) (c : ascii) (r : string) :
  rstrip p s = String c r -> exists s', s = String c s'.
Proof.
  destruct s as [|d s]; simpl; [discriminate|].
  destruct (rstrip p s).
  - destruct (p d); [discriminate|].
    intros E; injection E as <- _. now exists s.
  - intros E; injection E as <- _. now exists s.
Qed.

Lemma strip_head (p : ascii -> bool) (s : string) (c : ascii) (r : string) :
  strip p s = String c r -> p c = false.
Proof.
  unfold strip. intros H. apply rstrip_head in H. destruct H as [s' H].
  now apply lstrip_head in H.
Qed.

Lemma rstrip_last (p : ascii -> bool) (s pre : string) (c : ascii) :
  rstrip p s = pre ++ String c "" -> p c = false.
Proof.
  revert pre. induction s as [|d s IH]; intros pre; simpl.
  - destruct pre; discriminate.
  - destruct (rstrip p s) as [|e r] eqn:Hr.
    + destruct (p d) eqn:Hd.
      * destruct pre; discriminate.
      * destruct pre as [|x pre]; simpl.
        -- intros E; injection E as <-. exact Hd.
        -- intros E; injection E as _ E. destruct pre; discriminate.
    + destruct pre as [|x pre]; simpl.
      * intros E; injection E as _ E. discriminate.
      * intros E; injection E as _ E. exact (IH pre E).
Qed.

(** A sanitized name never starts with an underscore or a hyphen. *)
Theorem sanitize_filename_start (name : string) :
  String.prefix "_" (sanitize_filename name) = false
  /\ String.prefix "-" (sanitize_filename name) = false.
Proof.
  rewrite sanitize_filename_untruncated.
  destruct (untruncated name) as [|c r] eqn:Hu; [split; reflexivity|].
  unfold untruncated in Hu. apply strip_head in Hu.
  unfold take. simpl substring. cbn [String.prefix].
  simpl in Hu. apply orb_false_iff in Hu. destruct Hu as [H1 H2].
  rewrite orb_false_r in H2.
  split.
  - destruct (ascii_dec "_" c) as [<-|Hn]; [discriminate|reflexivity].
  - destruct (ascii_dec "-" c) as [<-|Hn]; [discriminate|reflexivity].
Qed.

(** A sanitized name that the truncation left whole (fewer than 100 code
    points) does not end with an underscore or a hyphen either. *)
Theorem sanitize_filename_end (name : string) :
  (String.length (sanitize_filename name) < 100)%nat ->
  endswith (sanitize_filename name) "_" = false
  /\ endswith (sanitize_filename name) "-" = false.
Proof.
  rewrite sanitize_filename_untruncated. intros H.
  rewrite (take_short _ _ H).
  assert (Hl : forall c, mem c "_-" = true ->
                         endswith (untruncated name) (String c "") = false).
  { intros c Hc. destruct (endswith _ _) eqn:He; [|reflexivity].
    apply endswith_iff in He. destruct He as [pre He].
    unfold untruncated, strip in He. apply rstrip_last in He. congruence. }
  split; apply Hl; reflexivity.
Qed.

(** *** Idempotence *)

Lemma filter_all (p : ascii -> bool) (s : string) :
  (forall c, occurs c s -> p c = true) -> filter p s = s.
Proof.
  unfold occurs. induction s as [|d s IH]; simpl; [reflexivity|].
  intros H. rewrite (H d) by auto. f_equal. apply IH. auto.
Qed.

Lemma lstrip_none (p : ascii -> bool) (s : string) :
  (forall c, occurs c s -> p c = false) -> lstrip p s = s.
Proof.
  unfold occurs. destruct s as [|d s]; simpl; [reflexivity|].
  intros H. now rewrite (H d) by auto.
Qed.

Lemma rstrip_none (p : ascii -> bool) (s : string) :
  (forall c, occurs c s -> p c = false) -> rstrip p s = s.
Proof.
  unfold occurs. induction s as [|d s IH]; simpl; [reflexivity|].
  intros H. rewrite IH by auto. rewrite (H d) by auto. now destruct s.
Qed.

Lemma sub_spaces_none (s : string) :
  (forall c, occurs c s -> isspace c = false) -> sub_spaces false s = s.
Proof.
  unfold occurs. induction s as [|d s IH]; simpl; [reflexivity|].
  intros H. rewrite (H d) by auto. f_equal. apply IH. auto.
Qed.

Lemma rstrip_idempotent (p : ascii -> bool) (s : string) :
  rstrip p (rstrip p s) = rstrip p s.
Proof.
  induction s as [|d s IH]; simpl; [reflexivity|].
  destruct (rstrip p s) as [|e r] eqn:Hr.
  - destruct (p d) eqn:Hd; simpl; [reflexivity|]. now rewrite Hd.
  - cbn [rstrip]. cbn [rstrip] in IH. now rewrite IH.
Qed.

Lemma strip_idempotent (p : ascii -> bool) (s : string) :
  strip p (strip p s) = strip p s.
Proof.
  unfold strip.
  assert (H : lstrip p (rstrip p (lstrip p s)) = rstrip p (lstrip p s)).
  { destruct (rstrip p (lstrip p s)) as [|c r] eqn:Hr; [reflexivity|].
    destruct (rstrip_head _ _ _ _ Hr) as [s' Hs'].
    apply lstrip_head in Hs'. simpl. now rewrite Hs'. }
  rewrite H. apply rstrip_idempotent.
Qed.

(** Sanitizing a sanitized name of fewer than 100 code points changes
    nothing. *)
Theorem sanitize_filename_idempotent (name : string) :
  (String.length (sanitize_filename name) < 100)%nat ->
  sanitize_filename (sanitize_filename name) = sanitize_filename name.
Proof.
  rewrite sanitize_filename_untruncated. intros H.
  rewrite (take_short _ _ H).
  assert (Hsp : forall c, occurs c (untruncated name) -> isspace c = false)
    by (intros c Hc; now apply (untruncated_alphabet name c) in Hc).
  assert (Hal : forall c, occurs c (untruncated name) -> allowed c = true).
  { intros c Hc. apply (untruncated_alphabet name c) in Hc.
    destruct Hc as [_ [Hc|[->| ->]]]; [|reflexivity|reflexivity].
    unfold allowed. now rewrite Hc. }
  unfold sanitize_filename.
  rewrite (filter_all _ _ Hal).
  unfold strip at 2. rewrite (lstrip_none _ _ Hsp), (rstrip_none _ _ Hsp).
  rewrite (sub_spaces_none _ Hsp).
  unfold untruncated at 1. rewrite strip_idempotent.
  fold (untruncated name). exact (take_short _ _ H).
Qed.

End SanitizerMore.

(** ** The detector: duration, exceptions, choice of the candidate *)

Section DetectorMore.
Import PyStr Posix PySet Detector.
Local Open Scope Z_scope.

Variable w : world.
Variable download_dir : string.
Variable initial_files : list string.

Lemma stability_duration (p : string) (attempts : nat) :
  forall stable last now,
    now <= snd (stability w p attempts stable last now)
    <= now + Z.of_nat attempts.
Proof.
  induction attempts as [|n IH]; intros stable last now; cbn [stability].
  - simpl. lia.
  - destruct (getsize w now p) as [size|]; cbv zeta.
    + destruct ((0 <? Z.of_N size) && (Z.of_N size =? last)).
      * destruct (5 <=? stable + 1); [simpl; lia|].
        specialize (IH (stable + 1) last (now + 1)). lia.
      * destruct (0 <=? Z.of_N size).
        -- specialize (IH (if 0 <? Z.of_N size then 1 else 0)
                           (Z.of_N size) (now + 1)). lia.
        -- specialize (IH stable last (now + 1)). lia.
    + specialize (IH 0 last (now + 1)). lia.
Qed.

Lemma polling_duration (timeout_start timeout : Z) (fuel : nat) :
  forall now,
    let r := snd (polling w download_dir initial_files timeout_start timeout
                          fuel now) in
    now <= r /\ (r = now \/ r < timeout_start + timeout + 25).
Proof.
  induction fuel as [|fuel IH]; intros now; cbn [polling]; [simpl; lia|].
  destruct (now - timeout_start <? timeout) eqn:Hc; [|simpl; lia].
  apply Z.ltb_lt in Hc.
  destruct (scan w download_dir initial_files now) as [| | |p].
  - simpl. lia.
  - specialize (IH (now + 2)). cbv zeta in IH. cbv zeta. lia.
  - specialize (IH (now + 1)). cbv zeta in IH. cbv zeta. lia.
  - pose proof (stability_duration p 25 0 (-1) now) as Hd.
    destruct (stability w p 25 0 (-1) now) as [x t]. simpl in *. lia.
Qed.

(** However it ends, a call ends less than 25 seconds after its timeout:
    the last pass starts before the timeout and a stability check takes
    25 seconds at most. *)
Theorem wait_duration_bound (timeout clock : Z) :
  let r := snd (wait_for_download_completion w download_dir initial_files
                                             timeout clock) in
  clock <= r /\ r - clock < Z.max 0 timeout + 25.
Proof.
  unfold wait_for_download_completion.
  pose proof (polling_duration clock timeout (S (Z.to_nat timeout)) clock)
    as H.
  cbv zeta in *. lia.
Qed.

Lemma scan_raised (now : Z) :
  scan w download_dir initial_files now = ScanRaised ->
  path_exists w now download_dir = true
  /\ listdir w now download_dir = None.
Proof.
  unfold scan, current_files.
  destruct (path_exists w now download_dir).
  - destruct (listdir w now download_dir) as [l|]; cbn [option_map].
    + destruct (new_completed_files (of_list l) initial_files);
        [discriminate|].
      destruct (sort_by_mtime_desc _) as [|[q m] rest]; discriminate.
    + auto.
  - discriminate.
Qed.

Lemma polling_raised (timeout_start timeout : Z) (fuel : nat) :
  forall now r,
    polling w download_dir initial_files timeout_start timeout fuel now
    = (Raised, r) ->
    now <= r /\ r - timeout_start < timeout
    /\ path_exists w r download_dir = true
    /\ listdir w r download_dir = None.
Proof.
  induction fuel as [|fuel IH]; intros now r; cbn [polling];
    [discriminate|].
  destruct (now - timeout_start <? timeout) eqn:Hc; [|discriminate].
  apply Z.ltb_lt in Hc.
  destruct (scan w download_dir initial_files now) as [| | |p] eqn:Hs.
  - intros E; injection E as <-. apply scan_raised in Hs.
    repeat split; try tauto; lia.
  - intros E. apply IH in E. repeat split; try tauto; lia.
  - intros E. apply IH in E. repeat split; try tauto; lia.
  - destruct (stability w p 25 0 (-1) now). discriminate.
Qed.

(** An exception leaves the call only from [os.listdir]: at an instant
    before the timeout at which the polled directory exists and its
    listing fails. *)
Theorem wait_raises_only_from_listdir (timeout clock r : Z) :
  wait_for_download_completion w download_dir initial_files timeout clock
  = (Raised, r) ->
  clock <= r /\ r - clock < timeout
  /\ path_exists w r download_dir = true
  /\ listdir w r download_dir = None.
Proof. unfold wait_for_download_completion. apply polling_raised. Qed.

(** *** The most recently modified candidate *)

Lemma insert_desc_in (x y : string * Z) (l : list (string * Z)) :
  y = x \/ In y l -> In y (insert_desc x l).
Proof.
  induction l as [|z l IH]; simpl.
  - intros [->|[]]. now left.
  - destruct (snd z <=? snd x); simpl.
    + intros [->|[->|H]]; auto.
    + intros [->|[->|H]]; auto.
Qed.

Lemma sort_by_mtime_desc_in (y : string * Z) (l : list (string * Z)) :
  In y l -> In y (sort_by_mtime_desc l).
Proof.
  unfold sort_by_mtime_desc. induction l as [|x l IH]; simpl; [tauto|].
  intros [->|H]; apply insert_desc_in; auto.
Qed.

Lemma insert_desc_head (x : string * Z) (l : list (string * Z)) :
  (forall h t, l = h :: t -> forall y, In y t -> snd y <= snd h) ->
  forall h t, insert_desc x l = h :: t ->
              forall y, In y t -> snd y <= snd h.
Proof.
  induction l as [|z l IH]; simpl; intros Hl h t.
  - intros E; injection E as <- <-. intros y [].
  - destruct (snd z <=? snd x) eqn:Hz.
    + apply Z.leb_le in Hz. intros E; injection E as <- <-.
      intros y [<-|Hy]; [exact Hz|].
      specialize (Hl z l eq_refl y Hy). lia.
    + apply Z.leb_gt in Hz. intros E; injection E as <- <-.
      intros y Hy. apply in_insert_desc in Hy. destruct Hy as [->|Hy].
      * lia.
      * exact (Hl z l eq_refl y Hy).
Qed.

Lemma sort_by_mtime_desc_head (l : list (string * Z)) :
  forall h t, sort_by_mtime_desc l = h :: t ->
              forall y, In y t -> snd y <= snd h.
Proof.
  unfold sort_by_mtime_desc. induction l as [|x l IH]; simpl.
  - discriminate.
  - apply insert_desc_head. exact IH.
Qed.

Lemma candidates_with_mtime_in (now : Z) (files : list string)
      (f : string) (m : Z) :
  In f files -> getmtime w now (join download_dir f) = Some m ->
  In (join download_dir f, m) (candidates_with_mtime w download_dir now files).
Proof.
  induction files as [|g files IH]; simpl; [tauto|].
  intros [->|H] Hm.
  - rewrite Hm. now left.
  - destruct (getmtime w now (join download_dir g)); [right|]; auto.
Qed.

Lemma candidates_with_mtime_read (now : Z) (files : list string)
      (x : string * Z) :
  In x (candidates_with_mtime w download_dir now files) ->
  getmtime w now (fst x) = Some (snd x).
Proof.
  induction files as [|g files IH]; simpl; [tauto|].
  destruct (getmtime w now (join download_dir g)) eqn:Hg; [|exact IH].
  intros [<-|H]; [exact Hg|auto].
Qed.

(** Among the new files without in-progress suffix whose modification time
    can be read, a pass selects one modified last: no other was modified
    later. *)
Theorem scan_selects_most_recent
        (now : Z) (current : list string) (p : string) :
  current_files w download_dir now = Some current ->
  scan w download_dir initial_files now = Candidate p ->
  exists m,
    getmtime w now p = Some m
    /\ forall f m',
        In f (new_completed_files current initial_files) ->
        getmtime w now (join download_dir f) = Some m' ->
        m' <= m.
Proof.
  unfold scan. intros -> .
  destruct (new_completed_files current initial_files) as [|f0 fs] eqn:Hn;
    [discriminate|].
  remember (sort_by_mtime_desc
              (candidates_with_mtime w download_dir now (f0 :: fs)))
    as sorted eqn:Hs.
  destruct sorted as [|[q m] rest]; [discriminate|].
  intros E; injection E as ->. exists m. split.
  - assert (Hin : In (p, m) ((p, m) :: rest)) by (left; reflexivity).
    rewrite Hs in Hin. apply in_sort_by_mtime_desc in Hin.
    exact (candidates_with_mtime_read _ _ _ Hin).
  - intros f m' Hf Hm.
    pose proof (candidates_with_mtime_in now (f0 :: fs) f m' Hf Hm) as Hc.
    apply sort_by_mtime_desc_in in Hc. rewrite <- Hs in Hc.
    destruct Hc as [E|Hc].
    + injection E as _ <-. lia.
    + exact (sort_by_mtime_desc_head _ _ _ (eq_sym Hs) _ Hc).
Qed.

End DetectorMore.

(** ** Path allocation: the counter, and the final JPG path *)

Section AllocatorMore.
Import PyStr Posix PySet Allocator JpgPath.

Lemma probe_first_free (fs : filesystem) (base_temp ext_temp : string)
      (fuel : nat) :
  forall counter_temp path p,
    probe fs base_temp ext_temp fuel counter_temp path = Some p ->
    (p = path /\ os_path_exists fs path = false)
    \/ (os_path_exists fs path = true
        /\ exists k,
            (counter_temp <= k)%nat
            /\ p = base_temp ++ "_" ++ of_nat k ++ ext_temp
            /\ os_path_exists fs p = false
            /\ forall j, (counter_temp <= j < k)%nat ->
                 os_path_exists fs (base_temp ++ "_" ++ of_nat j ++ ext_temp)
                 = true).
Proof.
  induction fuel as [|fuel IH]; intros counter_temp path p; cbn [probe];
    destruct (os_path_exists fs path) eqn:He; try discriminate.
  - intros E; injection E as <-. auto.
  - intros E. right. split; [reflexivity|].
    destruct (IH _ _ _ E) as [[-> Hf]|[Hx [k (Hk & Hp & Hf & Hall)]]].
    + exists counter_temp. repeat split; auto. intros j Hj. lia.
    + exists k. repeat split; auto; try lia.
      intros j Hj. destruct (Nat.eq_dec j counter_temp) as [->|Hn].
      * exact Hx.
      * apply Hall. lia.
  - intros E; injection E as <-. auto.
Qed.

(** The allocation returns the wanted path when it is free; otherwise the
    numbered name with the smallest counter, from 1 on, whose path is
    free. *)
Theorem allocate_smallest_counter
        (fs : filesystem) (destination_folder temp_filename p : string) :
  allocate fs destination_folder temp_filename = Some p ->
  (p = join destination_folder temp_filename
   /\ os_path_exists fs p = false)
  \/ (os_path_exists fs (join destination_folder temp_filename) = true
      /\ exists k,
          (1 <= k)%nat
          /\ p = fst (splitext temp_filename) ++ "_" ++ of_nat k
                 ++ snd (splitext temp_filename)
          /\ os_path_exists fs p = false
          /\ forall j, (1 <= j < k)%nat ->
               os_path_exists fs
                 (fst (splitext temp_filename) ++ "_" ++ of_nat j
                  ++ snd (splitext temp_filename)) = true).
Proof.
  unfold allocate. destruct (splitext temp_filename) as [base ext].
  cbn [fst snd]. intros E. apply probe_first_free in E.
  destruct E as [[-> Hf]|H]; [left; auto|right; exact H].
Qed.

(** *** The final JPG path *)

Lemma probe_jpg_result (fs : filesystem) (stem initial : string)
      (fuel : nat) :
  forall counter path p,
    probe_jpg fs stem initial fuel counter path = Some p ->
    (os_path_exists fs p = false \/ p = initial)
    /\ (p = path \/ exists k, p = stem ++ "_" ++ of_nat k ++ ".jpg").
Proof.
  induction fuel as [|fuel IH]; intros counter path p; cbn [probe_jpg];
    destruct (os_path_exists fs path
              && negb (String.eqb path initial)) eqn:He;
    try discriminate.
  - intros E; injection E as <-. split; [|auto].
    apply andb_false_iff in He. destruct He as [He|He]; [auto|].
    right. apply negb_false_iff in He. now apply String.eqb_eq.
  - intros E. destruct (IH _ _ _ E) as [H1 [->|[k Hk]]].
    + split; [exact H1|]. right. now exists counter.
    + split; [exact H1|]. right. now exists k.
  - intros E; injection E as <-. split; [|auto].
    apply andb_false_iff in He. destruct He as [He|He]; [auto|].
    right. apply negb_false_iff in He. now apply String.eqb_eq.
Qed.

Lemma probe_jpg_none (fs : filesystem) (stem initial : string)
      (fuel : nat) :
  forall counter path,
    probe_jpg fs stem initial fuel counter path = None ->
    forall k, In k (seq counter fuel) ->
              os_path_exists fs (stem ++ "_" ++ of_nat k ++ ".jpg") = true.
Proof.
  induction fuel as [|fuel IH]; intros counter path E k Hk;
    [destruct Hk|].
  cbn [probe_jpg] in E.
  destruct (os_path_exists fs path && negb (String.eqb path initial));
    [|discriminate].
  cbn [seq] in Hk. destruct Hk as [<-|Hk].
  - destruct fuel as [|fuel]; cbn [probe_jpg] in E;
      destruct (os_path_exists fs
                  (stem ++ "_" ++ of_nat counter ++ ".jpg")) eqn:He;
      try reflexivity; cbn [andb] in E; discriminate.
  - exact (IH _ _ E k Hk).
Qed.

Lemma rfind_dot_jpg (s : string) :
  rfind "." (s ++ ".jpg") = Some (String.length s).
Proof. rewrite rfind_append. cbn. f_equal. lia. Qed.

Lemma take_append (x y : string) : take (String.length x) (x ++ y) = x.
Proof.
  unfold take. induction x as [|c x IH]; simpl.
  - now destruct y.
  - now rewrite IH.
Qed.

(** The stem of a path that ends in [.jpg] is that path, whole or without
    the [.jpg]. *)
Lemma splitext_dot_jpg (s : string) :
  fst (splitext (s ++ ".jpg")) = s
  \/ fst (splitext (s ++ ".jpg")) = s ++ ".jpg".
Proof.
  unfold splitext. rewrite rfind_dot_jpg.
  destruct (_ <=? _)%nat; [|auto].
  destruct (filter _ _); [auto|]. left. cbn [fst]. apply take_append.
Qed.

Lemma splitext_fst_prefix (p : string) :
  exists rest, p = fst (splitext p) ++ rest.
Proof.
  unfold splitext. destruct (rfind "." p) as [dot|].
  - destruct (_ <=? _)%nat.
    + destruct (filter _ _).
      * exists "". cbn [fst]. now rewrite append_nil_r.
      * cbn [fst]. exists (drop dot p). unfold take.
        clear. revert p. induction dot as [|n IH]; intros [|c p]; simpl;
          try reflexivity.
        f_equal. apply IH.
    + exists "". cbn [fst]. now rewrite append_nil_r.
  - exists "". cbn [fst]. now rewrite append_nil_r.
Qed.

Lemma rfind_append_none (c : ascii) (x y : string) :
  rfind c (x ++ y) = None -> rfind c x = None /\ rfind c y = None.
Proof.
  rewrite rfind_append. destruct (rfind c y); [discriminate|auto].
Qed.

Lemma rfind_none_append (c : ascii) (x y : string) :
  rfind c x = None -> rfind c y = None -> rfind c (x ++ y) = None.
Proof. intros Hx Hy. now rewrite rfind_append, Hy. Qed.

Lemma join_append_plain (a x y : string) :
  rfind "/" x = None ->
  rfind "/" (x ++ y) = None ->
  join a x ++ y = join a (x ++ y).
Proof.
  intros Hx Hxy. unfold join.
  rewrite (plain_not_absolute _ Hx), (plain_not_absolute _ Hxy).
  destruct (String.eqb a "" || endswith a "/");
    now rewrite ?append_assoc.
Qed.

Lemma rfind_of_nat (n : nat) : rfind "/" (of_nat n) = None.
Proof.
  unfold of_nat.
  assert (H : forall d, rfind "/" (NilEmpty.string_of_uint d) = None).
  { induction d; simpl; try reflexivity; now rewrite IHd. }
  apply H.
Qed.

(** The final JPG path is always found; it does not exist, unless it is
    the path the image was first written to; and it lies directly in
    [destination_folder]. *)
Theorem unique_jpg_path_in_destination
        (fs : filesystem) (destination_folder initial_file_path : string) :
  exists p name,
    unique_jpg_path fs destination_folder initial_file_path = Some p
    /\ (os_path_exists fs p = false \/ p = initial_file_path)
    /\ p = join destination_folder name
    /\ rfind "/" name = None.
Proof.
  unfold unique_jpg_path.
  set (base := fst (splitext (basename initial_file_path))).
  assert (Hbase : rfind "/" base = None).
  { destruct (splitext_fst_prefix (basename initial_file_path))
      as [rest E].
    pose proof (basename_plain initial_file_path) as Hb.
    rewrite E in Hb. now apply rfind_append_none in Hb. }
  assert (Hjpg : rfind "/" (base ++ ".jpg") = None)
    by (apply rfind_none_append; [exact Hbase|reflexivity]).
  set (original := join destination_folder (base ++ ".jpg")).
  assert (Hstem : exists x, fst (splitext original)
                            = join destination_folder x
                            /\ rfind "/" x = None).
  { unfold original.
    rewrite <- (join_append_plain _ _ _ Hbase Hjpg).
    destruct (splitext_dot_jpg (join destination_folder base)) as [E|E];
      rewrite E.
    - exists base. auto.
    - exists (base ++ ".jpg").
      now rewrite <- (join_append_plain _ _ _ Hbase Hjpg). }
  destruct Hstem as [x [Hx Hxp]]. rewrite Hx.
  destruct (probe_jpg fs (join destination_folder x) initial_file_path
                      (S (List.length fs)) 1 original) as [p|] eqn:E.
  - destruct (probe_jpg_result _ _ _ _ _ _ _ E) as [Hfree [->|[k ->]]].
    + exists original, (base ++ ".jpg"). auto.
    + exists (join destination_folder x ++ "_" ++ of_nat k ++ ".jpg"),
             (x ++ "_" ++ of_nat k ++ ".jpg").
      assert (Hn : rfind "/" (x ++ "_" ++ of_nat k ++ ".jpg") = None).
      { apply rfind_none_append; [exact Hxp|].
        apply (rfind_none_append _ "_"); [reflexivity|].
        apply rfind_none_append; [apply rfind_of_nat|reflexivity]. }
      repeat split; auto. now apply join_append_plain.
  - exfalso.
    assert (Hincl : incl (map (fun k => join destination_folder x ++ "_"
                                        ++ of_nat k ++ ".jpg")
                              (seq 1 (S (List.length fs)))) fs).
    { intros q Hq. apply in_map_iff in Hq. destruct Hq as [k [<- Hk]].
      assert (He := probe_jpg_none _ _ _ _ _ _ E k Hk).
      unfold os_path_exists, in_set in He. apply existsb_exists in He.
      destruct He as [g [Hg Heq]]. apply String.eqb_eq in Heq.
      now subst g. }
    apply NoDup_incl_length in Hincl; [|apply numbered_paths_nodup].
    rewrite length_map, length_seq in Hincl. lia.
Qed.

End AllocatorMore.

(** ** The reconciler: which entries move, what the rewrite keeps *)

Section ReconcilerMore.
Import PyStr Posix PySet Reconciler Scraped.

Lemma in_set_app (f : string) (a b : list string) :
  in_set f (a ++ b) = in_set f a || in_set f b.
Proof. unfold in_set. apply existsb_app. Qed.

Lemma filter_filter {A : Type} (p q : A -> bool) (l : list A) :
  List.filter p (List.filter q l) = List.filter (fun x => q x && p x) l.
Proof.
  induction l as [|x l IH]; simpl; [reflexivity|].
  destruct (q x); simpl; [destruct (p x)|]; now rewrite IH.
Qed.

Lemma move_items_completed (os_fails : string -> bool) (src_dir : string)
      (items : list string) :
  forall src dst,
    NoDup items ->
    (forall x, In x items -> os_fails (join src_dir x) = false) ->
    move_items os_fails src_dir items src dst
    = (true,
       (List.filter
          (fun g => negb (in_set g (List.filter
                                      (fun x => negb (in_set x dst)) items)))
          src,
        (dst ++ List.filter (fun x => negb (in_set x dst)) items)%list)).
Proof.
  induction items as [|x items IH]; intros src dst Hnd Hos.
  - cbn. rewrite app_nil_r. f_equal. f_equal.
    induction src as [|g src IHs]; simpl; [reflexivity|now rewrite <- IHs].
  - inversion Hnd as [|? ? Hx Hnd']; subst.
    cbn [move_items]. unfold shutil_move.
    cbn [List.filter].
    destruct (in_set x dst) eqn:Hd; cbn [negb].
    + apply IH; [exact Hnd'|]. intros y Hy. apply Hos. now right.
    + rewrite (Hos x) by (now left).
      rewrite IH; [|exact Hnd'|intros y Hy; apply Hos; now right].
      assert (Hsame : List.filter (fun y => negb (in_set y (dst ++ [x])))
                                  items
                      = List.filter (fun y => negb (in_set y dst)) items).
      { apply filter_ext_in. intros y Hy. rewrite in_set_app.
        assert (E : in_set y [x] = false).
        { unfold in_set. simpl. rewrite orb_false_r.
          apply String.eqb_neq. intros ->. contradiction. }
        now rewrite E, orb_false_r. }
      rewrite Hsame. f_equal. f_equal.
      * rewrite filter_filter. apply filter_ext. intros g.
        unfold in_set at 3. cbn [existsb]. rewrite negb_orb.
        reflexivity.
      * now rewrite <- app_assoc.
Qed.

(** The rewrite of recorded paths keeps their number, their order and
    their file names, and puts each directly into the destination. *)
Theorem rewrite_paths_keeps_names (destination : string)
        (paths : list string) :
  map basename (rewrite_paths destination paths) = map basename paths
  /\ rewrite_paths destination paths
     = map (join destination) (map basename paths).
Proof.
  unfold rewrite_paths. split.
  - rewrite map_map. apply map_ext. intros p.
    apply basename_join_plain, basename_plain.
  - now rewrite map_map.
Qed.

(** From the detector to the record: a verified download
    [join download_dir f] is recorded, after Step 4, as [f] in the final
    files directory, whether the move into the temporary files directory
    succeeded or raised [shutil.Error]. *)
Theorem recorded_download_after_step4
        (moved : bool) (l : layout) (download_dir f : string) :
  rfind "/" f = None ->
  rewrite_paths (final_files_destination l)
    [recorded_path moved (temp_files_subdir l) (join download_dir f)]
  = [join (final_files_destination l) f].
Proof.
  intros Hf. unfold rewrite_paths, recorded_path. cbn [map].
  destruct moved.
  - now rewrite !basename_join_plain by (rewrite ?basename_join_plain; auto).
  - now rewrite basename_join_plain.
Qed.

End ReconcilerMore.

(** ** Step 4 as a whole *)

Section Step4Facts.
Import PyStr Posix PySet Reconciler.

Lemma move_contents_completed
      (os_fails : string -> bool) (src_dir : string)
      (entries dst : list string) :
  NoDup entries ->
  (forall x, In x entries -> os_fails (join src_dir x) = false) ->
  move_contents os_fails src_dir (Some entries) dst
  = (true,
     (Some (List.filter (fun x => in_set x dst) entries),
      (dst ++ List.filter (fun x => negb (in_set x dst)) entries)%list)).
Proof.
  intros Hnd Hos. unfold move_contents.
  rewrite (move_items_completed os_fails src_dir entries entries dst Hnd Hos).
  f_equal. f_equal. f_equal.
  apply filter_ext_in. intros g Hg.
  set (moved := List.filter (fun x => negb (in_set x dst)) entries).
  destruct (in_set g dst) eqn:Hd.
  - apply negb_true_iff. destruct (in_set g moved) eqn:E; [|reflexivity].
    apply in_set_iff in E. apply filter_In in E. destruct E as [_ E].
    rewrite Hd in E. discriminate.
  - apply negb_false_iff. apply in_set_iff. apply filter_In.
    split; [exact Hg|]. now rewrite Hd.
Qed.

(** When the operating system refuses no move, Step 4 runs to its end.
    Each final directory keeps its entries and gains, in order, the
    entries of its temporary directory whose names it lacked; each
    temporary directory keeps exactly the entries whose names the final
    one already held; and the record comes back with its paths
    rewritten. *)
Theorem move_and_rewrite_outcome
        (os_fails : string -> bool) (l : layout)
        (image_entries final_image_entries : list string)
        (file_entries final_file_entries : list string) (d : details) :
  NoDup image_entries -> NoDup file_entries ->
  (forall p, os_fails p = false) ->
  move_and_rewrite os_fails l
    {| temp_images := Some image_entries;
       final_images := final_image_entries;
       temp_files := Some file_entries;
       final_files := final_file_entries |} d
  = Completed
      {| temp_images :=
           Some (List.filter (fun x => in_set x final_image_entries)
                             image_entries);
         final_images :=
           (final_image_entries
            ++ List.filter (fun x => negb (in_set x final_image_entries))
                           image_entries)%list;
         temp_files :=
           Some (List.filter (fun x => in_set x final_file_entries)
                             file_entries);
         final_files :=
           (final_file_entries
            ++ List.filter (fun x => negb (in_set x final_file_entries))
                           file_entries)%list |}
      (rewrite_details l d).
Proof.
  intros Hi Hf Hos. unfold move_and_rewrite.
  cbn [temp_images final_images temp_files final_files].
  rewrite (move_contents_completed os_fails _ _ _ Hi)
    by (intros x _; apply Hos).
  rewrite (move_contents_completed os_fails _ _ _ Hf)
    by (intros x _; apply Hos).
  reflexivity.
Qed.

End Step4Facts.

(** ** [clean_directory] *)

Section CleanerFacts.
Import PyStr Posix Cleaner.

Lemma clean_items_filter (fails : string -> bool) (directory_path : string)
      (items : list (string * kind)) :
  forall present,
    NoDup (map fst items) ->
    (forall e, In e present -> In (fst e) (map fst items) -> In e items) ->
    clean_items fails directory_path items present
    = List.filter
        (fun e => negb (existsb (fun i => String.eqb (fst e) (fst i)
                                          && remove_item fails directory_path i)
                                items))
        present.
Proof.
  induction items as [|item items IH]; intros present Hnd Hin.
  - cbn. induction present as [|e present IHp]; simpl;
      [reflexivity|now rewrite <- IHp].
  - inversion Hnd as [|? ? Hx Hnd']; subst.
    cbn [clean_items existsb].
    destruct (remove_item fails directory_path item) eqn:Hr.
    + rewrite IH; [|exact Hnd'|].
      * rewrite filter_filter. apply filter_ext. intros e.
        rewrite andb_true_r, negb_orb. reflexivity.
      * intros e He Hf. apply filter_In in He. destruct He as [He Hne].
        destruct (Hin e He (or_intror Hf)) as [<-|H]; [|exact H].
        rewrite String.eqb_refl in Hne. discriminate.
    + rewrite IH; [|exact Hnd'|].
      * apply filter_ext_in. intros e He.
        rewrite andb_false_r. reflexivity.
      * intros e He Hf. destruct (Hin e He (or_intror Hf)) as [<-|H];
          [|exact H].
        exfalso. apply Hx. exact Hf.
Qed.

Lemma clean_directory_filter
      (fails : string -> bool) (directory_path : string)
      (entries : list (string * kind)) :
  NoDup (map fst entries) ->
  clean_directory fails directory_path (Some entries)
  = Some (List.filter
            (fun e => negb (remove_item fails directory_path e))
            entries).
Proof.
  intros Hnd. unfold clean_directory. f_equal.
  rewrite clean_items_filter; [|exact Hnd|auto].
  apply filter_ext_in. intros e He. f_equal.
  destruct (remove_item fails directory_path e) eqn:Hr.
  - apply existsb_exists. exists e. split; [exact He|].
    now rewrite String.eqb_refl, Hr.
  - destruct (existsb _ entries) eqn:Hex; [|reflexivity].
    apply existsb_exists in Hex. destruct Hex as [i [Hi Hb]].
    apply andb_true_iff in Hb. destruct Hb as [Hn Hri].
    apply String.eqb_eq in Hn.
    assert (E : i = e).
    { clear - Hnd He Hi Hn. induction entries as [|x l IH]; [destruct He|].
      inversion Hnd as [|? ? Hx Hnd']; subst.
      destruct He as [->|He]; destruct Hi as [->|Hi]; auto.
      - exfalso. apply Hx. rewrite Hn. now apply in_map.
      - exfalso. apply Hx. rewrite <- Hn. now apply in_map. }
    subst i. congruence.
Qed.

(** [clean_directory] leaves the directory in existence; of its entries
    exactly those stay, in order, that are neither file, link nor
    directory or whose removal raised.  A missing directory is created
    empty. *)
Theorem clean_directory_outcome
        (fails : string -> bool) (directory_path : string)
        (entries : list (string * kind)) :
  NoDup (map fst entries) ->
  clean_directory fails directory_path None = Some []
  /\ clean_directory fails directory_path (Some entries)
     = Some (List.filter
               (fun e => negb (remove_item fails directory_path e))
               entries).
Proof.
  intros Hnd. split; [reflexivity|]. now apply clean_directory_filter.
Qed.

(** With removable entries only and no removal that raises, the directory
    is empty afterwards. *)
Theorem clean_directory_empties
        (fails : string -> bool) (directory_path : string)
        (entries : list (string * kind)) :
  NoDup (map fst entries) ->
  (forall e, In e entries ->
             snd e <> Special
             /\ fails (join directory_path (fst e)) = false) ->
  clean_directory fails directory_path (Some entries) = Some [].
Proof.
  intros Hnd Hok. rewrite (clean_directory_filter _ _ _ Hnd).
  f_equal. induction entries as [|e l IH]; [reflexivity|].
  cbn [List.filter].
  assert (Hr : remove_item fails directory_path e = true).
  { destruct (Hok e (or_introl eq_refl)) as [Hk Hf].
    unfold remove_item. rewrite Hf. now destruct (snd e). }
  rewrite Hr. cbn [negb]. apply IH.
  - now inversion Hnd.
  - intros e' He'. apply Hok. now right.
Qed.

End CleanerFacts.

(** ** The URL list file *)

Section UrlFileFacts.
Import PyStr UrlFile.

Lemma readlines_line (url rest : string) :
  no_line_break url ->
  readlines (url ++ String LF rest) = (url ++ String LF "") :: readlines rest.
Proof.
  unfold no_line_break, occurs.
  induction url as [|c url IH]; intros [Hlf Hcr].
  - reflexivity.
  - cbn [append readlines].
    destruct (Ascii.eqb c LF) eqn:E1.
    { apply Ascii.eqb_eq in E1. subst c. exfalso. apply Hlf. now left. }
    destruct (Ascii.eqb c CR) eqn:E2.
    { apply Ascii.eqb_eq in E2. subst c. exfalso. apply Hcr. now left. }
    rewrite IH; [reflexivity|].
    split; intros H; [apply Hlf|apply Hcr]; now right.
Qed.

Lemma rstrip_snoc (p : ascii -> bool) (c : ascii) (s : string) :
  p c = true -> rstrip p (s ++ String c "") = rstrip p s.
Proof.
  intros Hc. induction s as [|d s IH]; simpl.
  - now rewrite Hc.
  - now rewrite IH.
Qed.

Lemma lstrip_snoc (p : ascii -> bool) (c : ascii) (s : string) :
  p c = true ->
  lstrip p (s ++ String c "")
  = match lstrip p s with
    | EmptyString => EmptyString
    | y => y ++ String c ""
    end.
Proof.
  intros Hc. induction s as [|d s IH]; simpl.
  - now rewrite Hc.
  - destruct (p d); [exact IH|reflexivity].
Qed.

Lemma strip_snoc (p : ascii -> bool) (c : ascii) (s : string) :
  p c = true -> strip p (s ++ String c "") = strip p s.
Proof.
  intros Hc. unfold strip. rewrite (lstrip_snoc p c s Hc).
  destruct (lstrip p s) as [|d y] eqn:E; [reflexivity|].
  now apply rstrip_snoc.
Qed.

Lemma readlines_written (urls : list string) :
  (forall url, In url urls -> no_line_break url) ->
  map (strip isspace) (readlines (written urls)) = map (strip isspace) urls.
Proof.
  intros H. induction urls as [|url urls IH]; [reflexivity|].
  cbn [written map]. rewrite readlines_line by (apply H; now left).
  cbn [map]. rewrite (strip_snoc isspace LF url eq_refl).
  f_equal. apply IH. intros u Hu. apply H. now right.
Qed.

(** What was saved is what is loaded: for URLs without line breaks, loading
    the saved file gives the URLs back, each stripped of surrounding
    whitespace, the empty ones left out. *)
Theorem load_saved_urls (urls : list string) :
  (forall url, In url urls -> no_line_break url) ->
  load_urls_from_file (Content (written urls))
  = List.filter nonempty (map (strip isspace) urls).
Proof.
  unfold load_urls_from_file. intros H. now rewrite readlines_written.
Qed.

(** The round trip is exact on URLs that are not empty and carry neither
    line breaks nor surrounding whitespace. *)
Theorem load_saved_urls_exact (urls : list string) :
  (forall url, In url urls ->
               no_line_break url /\ url <> ""
               /\ strip isspace url = url) ->
  load_urls_from_file (Content (written urls)) = urls.
Proof.
  intros H. unfold load_urls_from_file.
  rewrite readlines_written by (intros u Hu; now apply H).
  induction urls as [|url urls IH]; [reflexivity|].
  cbn [map List.filter].
  destruct (H url (or_introl eq_refl)) as (_ & Hne & ->).
  unfold nonempty at 1.
  destruct (String.eqb_spec url ""); [contradiction|]. cbn [negb].
  f_equal. apply IH. intros u Hu. apply H. now right.
Qed.

End UrlFileFacts.

(** ** Links, model ids and directory names *)

Section ModelIdFacts.
Import PyStr Sanitizer ModelId.

Lemma prefix_split (p : string) :
  forall s, String.prefix p s = true -> s = p ++ drop (String.length p) s.
Proof.
  induction p as [|a p IH]; intros s; [reflexivity|].
  destruct s as [|b s]; simpl; [discriminate|].
  destruct (ascii_dec a b) as [->|]; [|discriminate].
  intros H. f_equal. now apply IH.
Qed.

Lemma digits_split (s : string) :
  exists post, s = digits s ++ post /\ digits post = "".
Proof.
  induction s as [|c s [post [E Hp]]]; simpl.
  - exists "". auto.
  - destruct (isdigit c) eqn:Hc.
    + exists post. simpl. now rewrite <- E.
    + exists (String c s). simpl. now rewrite Hc.
Qed.

Lemma digits_all (s : string) (c : ascii) :
  occurs c (digits s) -> isdigit c = true.
Proof.
  unfold occurs. induction s as [|d s IH]; simpl; [tauto|].
  destruct (isdigit d) eqn:Hd; simpl; [|tauto].
  intros [<-|H]; auto.
Qed.

Lemma match_here_group (s group : string) :
  match_here s = Some group ->
  group <> ""
  /\ (forall c, occurs c group -> isdigit c = true)
  /\ exists post, s = "/model/" ++ group ++ post /\ digits post = "".
Proof.
  unfold match_here. destruct (String.prefix "/model/" s) eqn:Hp;
    [|discriminate].
  apply prefix_split in Hp. cbn [String.length] in Hp.
  destruct (digits (drop 7 s)) as [|c g] eqn:Hd; [discriminate|].
  intros E; injection E as <-. split; [discriminate|]. split.
  - intros x Hx. rewrite <- Hd in Hx. exact (digits_all _ _ Hx).
  - destruct (digits_split (drop 7 s)) as [post [E Hpost]].
    exists post. rewrite Hd in E. split; [|exact Hpost].
    rewrite Hp at 1. now rewrite E at 1.
Qed.

Lemma search_group (url group : string) :
  search url = Some group ->
  group <> ""
  /\ (forall c, occurs c group -> isdigit c = true)
  /\ exists pre post,
      url = pre ++ "/model/" ++ group ++ post /\ digits post = "".
Proof.
  induction url as [|c url IH].
  - cbn. discriminate.
  - cbn [search]. destruct (match_here (String c url)) as [g|] eqn:Hm.
    + intros E; injection E as ->.
      destruct (match_here_group _ _ Hm) as (H1 & H2 & post & E & Hp).
      repeat split; auto. exists "", post. auto.
    + intros E. destruct (IH E) as (H1 & H2 & pre & post & Eu & Hp).
      repeat split; auto. exists (String c pre), post.
      split; [|exact Hp]. rewrite Eu at 1. reflexivity.
Qed.

(** A model id found in the URL is not empty, is made of digits only and
    is the whole run of digits behind an occurrence of [/model/]. *)
Theorem model_id_from_url (i : nat) (url group : string) :
  search url = Some group ->
  model_id i url = group
  /\ group <> ""
  /\ (forall c, occurs c group -> isdigit c = true)
  /\ exists pre post,
      url = pre ++ "/model/" ++ group ++ post /\ digits post = "".
Proof.
  intros H. split; [unfold model_id; now rewrite H|].
  now apply search_group.
Qed.

Lemma digits_append (d rest : string) :
  (forall c, occurs c d -> isdigit c = true) ->
  digits (d ++ rest) = d ++ digits rest.
Proof.
  unfold occurs. induction d as [|c d IH]; simpl; [reflexivity|].
  intros H. rewrite (H c) by auto. f_equal. apply IH. auto.
Qed.

Lemma before_query_digits (d rest : string) :
  (forall c, occurs c d -> isdigit c = true) ->
  before_query (d ++ rest) = d ++ before_query rest.
Proof.
  unfold occurs. induction d as [|c d IH]; simpl; [reflexivity|].
  intros H. destruct (Ascii.eqb c "?") eqn:E.
  - apply Ascii.eqb_eq in E. subst c.
    specialize (H "?"%char (or_introl eq_refl)). discriminate.
  - f_equal. apply IH. auto.
Qed.

Lemma digits_before_query (rest : string) :
  digits rest = "" -> digits (before_query rest) = "".
Proof.
  destruct rest as [|c rest]; simpl; [reflexivity|].
  destruct (isdigit c) eqn:Hc; [discriminate|].
  intros _. destruct (Ascii.eqb c "?"); simpl; [reflexivity|].
  now rewrite Hc.
Qed.

Lemma match_here_model (group post : string) :
  group <> "" ->
  (forall c, occurs c group -> isdigit c = true) ->
  digits post = "" ->
  match_here ("/model/" ++ group ++ post) = Some group.
Proof.
  intros Hne Hd Hp. unfold match_here.
  assert (Hpre : String.prefix "/model/" ("/model/" ++ group ++ post) = true)
    by (destruct group; [contradiction|reflexivity]).
  rewrite Hpre. cbn [append drop].
  rewrite (digits_append _ _ Hd), Hp, append_nil_r.
  destruct group; [contradiction|reflexivity].
Qed.

Lemma search_skip (c : ascii) (s : string) :
  match_here (String c s) = None -> search (String c s) = search s.
Proof. intros H. cbn [search]. now rewrite H. Qed.

Lemma search_here (s group : string) :
  match_here s = Some group -> search s = Some group.
Proof. intros H. destruct s; cbn [search]; now rewrite H. Qed.

(** From the listing page to the folder name: for a link of the page of
    the form [/model/<digits><rest>], where [rest] does not go on with a
    digit, [scrape_models] collects a link from which [main.py] recovers
    exactly those digits as model id. *)
Theorem model_id_of_collected_link (i : nat) (group rest : string) :
  group <> "" ->
  (forall c, occurs c group -> isdigit c = true) ->
  digits rest = "" ->
  exists link,
    collect_link ("/model/" ++ group ++ rest) = Some link
    /\ model_id i link = group.
Proof.
  intros Hne Hd Hrest.
  exists ("https://www.printables.com"
          ++ "/model/" ++ group ++ before_query rest).
  split.
  - assert (Hq : before_query ("/model/" ++ group ++ rest)
                 = "/model/" ++ group ++ before_query rest)
      by (cbn; now rewrite (before_query_digits _ _ Hd)).
    assert (Hc : negb (String.eqb ("/model/" ++ group ++ rest) "")
                 && String.prefix "/model/" ("/model/" ++ group ++ rest)
                 = true)
      by (destruct group; [contradiction|reflexivity]).
    unfold collect_link. now rewrite Hc, Hq.
  - unfold model_id.
    assert (E : search ("https://www.printables.com"
                        ++ "/model/" ++ group ++ before_query rest)
                = Some group).
    { cbn [append].
      repeat (rewrite search_skip by reflexivity).
      apply search_here, match_here_model; auto.
      now apply digits_before_query. }
    now rewrite E.
Qed.

Lemma occurs_append (c : ascii) (x y : string) :
  occurs c (x ++ y) -> occurs c x \/ occurs c y.
Proof.
  unfold occurs. induction x as [|d x IH]; simpl; [auto|].
  intros [->|H]; [auto|]. destruct (IH H); auto.
Qed.

Lemma of_nat_digits (n : nat) (c : ascii) :
  occurs c (of_nat n) -> isdigit c = true.
Proof.
  unfold of_nat, occurs.
  generalize (Nat.to_uint n). intros d.
  induction d; simpl; try tauto;
    (intros [<-|H]; [reflexivity|auto]).
Qed.

Lemma model_id_shape (i : nat) (url : string) :
  (forall c, occurs c (model_id i url) -> is_separator c = false)
  /\ exists c rest, model_id i url = String c rest
                    /\ (isdigit c = true \/ c = "u"%char).
Proof.
  unfold model_id. destruct (search url) as [g|] eqn:Hs.
  - destruct (search_group _ _ Hs) as (Hne & Hd & _). split.
    + intros c Hc. specialize (Hd c Hc).
      destruct (is_separator c) eqn:E; [|reflexivity].
      unfold is_separator in E. apply orb_true_iff in E.
      destruct E as [E|E]; apply Ascii.eqb_eq in E; subst c; discriminate.
    + destruct g as [|c g]; [contradiction|]. exists c, g.
      split; [reflexivity|]. left. apply Hd. now left.
  - split.
    + intros c Hc. apply occurs_append in Hc. destruct Hc as [Hc|Hc].
      * unfold occurs in Hc. simpl in Hc.
        repeat (destruct Hc as [<-|Hc]; [reflexivity|]). destruct Hc.
      * apply of_nat_digits in Hc.
        destruct (is_separator c) eqn:E; [|reflexivity].
        unfold is_separator in E. apply orb_true_iff in E.
        destruct E as [E|E]; apply Ascii.eqb_eq in E; subst c;
          discriminate.
    + exists "u"%char, ("nknown_id_" ++ of_nat i). auto.
Qed.

(** The name of a model's final directory holds no path separator and
    starts with a digit or with the [u] of [unknown_id]: it is never
    empty, [.] or [..], whatever the title. *)
Theorem final_model_directory_name_safe (i : nat) (url title : string) :
  (forall c, occurs c (final_model_directory_name i url title) ->
             is_separator c = false)
  /\ exists c rest,
      final_model_directory_name i url title = String c rest
      /\ (isdigit c = true \/ c = "u"%char).
Proof.
  unfold final_model_directory_name.
  destruct (model_id_shape i url) as [Hsep [c [rest [E Hc]]]]. split.
  - intros x Hx. apply occurs_append in Hx. destruct Hx as [Hx|Hx];
      [now apply Hsep|].
    apply (occurs_append x "_") in Hx. destruct Hx as [Hx|Hx].
    + unfold occurs in Hx. simpl in Hx. destruct Hx as [<-|[]]. reflexivity.
    + destruct (is_separator x) eqn:Hs; [|reflexivity].
      destruct (separator_not_allowed x Hs) as [Ha Hu].
      destruct (sanitize_filename_alphabet title x Hx); congruence.
  - exists c, (rest ++ "_" ++ sanitize_filename title).
    split; [now rewrite E|exact Hc].
Qed.

End ModelIdFacts.

(** ** Tags *)

Section TagFacts.
Import PyStr PySet Scraped.

Lemma add_tag_tidy (breadcrumb : bool) (tags : list string) (text : string) :
  tidy tags -> tidy (add_tag breadcrumb tags text).
Proof.
  intros [Hnd Hall]. unfold add_tag.
  destruct (negb (String.eqb (strip isspace text) "")
            && negb (breadcrumb && in_set (strip isspace text) ["3D Models"])
            && negb (in_set (strip isspace text) tags)) eqn:E;
    [|split; assumption].
  apply andb_true_iff in E. destruct E as [E Hnew].
  apply andb_true_iff in E. destruct E as [Hne _].
  apply negb_true_iff in Hne, Hnew. apply String.eqb_neq in Hne.
  split.
  - apply NoDup_app; [exact Hnd|repeat constructor; auto|].
    intros x Hx [<-|[]]. apply in_set_iff in Hx. congruence.
  - intros t Ht. apply in_app_or in Ht. destruct Ht as [Ht|[<-|[]]];
      [now apply Hall|].
    split; [exact Hne|apply strip_idempotent].
Qed.

Lemma fold_add_tag_tidy (breadcrumb : bool) (texts : list string) :
  forall tags, tidy tags -> tidy (fold_left (add_tag breadcrumb) texts tags).
Proof.
  induction texts as [|x texts IH]; intros tags H; [exact H|].
  cbn [fold_left]. apply IH. now apply add_tag_tidy.
Qed.

(** The tags of a model are pairwise distinct, none is empty and none
    has surrounding whitespace. *)
Theorem collect_tags_tidy (breadcrumbs attributes : list string) :
  NoDup (collect_tags breadcrumbs attributes)
  /\ forall t, In t (collect_tags breadcrumbs attributes) ->
               t <> "" /\ strip isspace t = t.
Proof.
  unfold collect_tags. apply fold_add_tag_tidy, fold_add_tag_tidy.
  split; [constructor|intros t []].
Qed.

End TagFacts.

(** ** The further properties on concrete inputs *)

Section MoreRuns.
Import PyStr Posix PySet Sanitizer Detector Allocator JpgPath Reconciler.
Import Cleaner UrlFile ModelId Scraped Scenarios MoreScenarios.

Lemma sanitize_filename_characters_witness :
  isspace "_" = false
  /\ (isword "_" = true \/ "_"%char = "."%char \/ "_"%char = "-"%char).
Proof.
  apply (sanitize_filename_characters "My: Cool/Model?? v2" "_").
  unfold occurs. vm_compute. do 2 right. left. reflexivity.
Defined.

Lemma sanitize_filename_end_witness :
  endswith (sanitize_filename "_a b_") "_" = false
  /\ endswith (sanitize_filename "_a b_") "-" = false.
Proof.
  apply (sanitize_filename_end "_a b_"). vm_compute. lia.
Defined.

Lemma sanitize_filename_idempotent_witness :
  sanitize_filename (sanitize_filename "My: Cool/Model?? v2")
  = sanitize_filename "My: Cool/Model?? v2".
Proof.
  apply (sanitize_filename_idempotent "My: Cool/Model?? v2").
  vm_compute. lia.
Defined.

(** At 100 code points the truncation can bare an underscore, which a
    second pass then strips. *)
Example sanitize_filename_truncated_twice :
  let name :=
    "aaaaaaaaaaaaaaaaaaaaaaaaaaaaaaaaaaaaaaaaaaaaaaaaaaaaaaaaaaaaaaaaaaaaaaaaaaaaaaaaaaaaaaaaaaaaaaaaaaa b" in
  endswith (sanitize_filename name) "_" = true
  /\ sanitize_filename (sanitize_filename name) <> sanitize_filename name.
Proof. split; [reflexivity|discriminate]. Qed.

Local Open Scope Z_scope.

(** C1, as the claim states it, fails: in a directory that exists but
    cannot be listed no listing ever shows a new file, and the call does
    not return [None]: the exception of [os.listdir] leaves it at its
    first pass. *)
Lemma unlistable_directory_raises :
  (forall t l f, listdir unlistable t "dl" = Some l -> In f l ->
                 ~ In f [] -> is_partial f = true)
  /\ wait_for_download_completion unlistable "dl" [] 10 0 = (Raised, 0)
  /\ forall r, wait_for_download_completion unlistable "dl" [] 10 0
               <> (Returned None, r).
Proof.
  split; [intros t l f H; discriminate H|].
  split; [reflexivity|]. intros r. discriminate.
Qed.

Lemma wait_raises_only_from_listdir_witness :
  0 <= 0 /\ 0 - 0 < 10
  /\ path_exists unlistable 0 "dl" = true
  /\ listdir unlistable 0 "dl" = None.
Proof.
  apply (wait_raises_only_from_listdir unlistable "dl" [] 10 0 0).
  reflexivity.
Defined.

Lemma scan_selects_most_recent_witness :
  exists m,
    getmtime restless 0 "dl/big.zip" = Some m
    /\ forall f m',
        In f (new_completed_files ["small.txt"; "big.zip"] []) ->
        getmtime restless 0 (join "dl" f) = Some m' ->
        m' <= m.
Proof.
  apply (scan_selects_most_recent restless "dl" [] 0
                                  ["small.txt"; "big.zip"] "dl/big.zip").
  - reflexivity.
  - reflexivity.
Defined.

Lemma stable_candidate_is_returned_witness :
  exists r,
    wait_for_download_completion growing "dl" [] 180 0
    = (Returned (Some "dl/a.zip"), r)
    /\ r <= 2 + Z.of_nat 2 + 4.
Proof.
  apply (stable_candidate_is_returned growing "dl" [] 180 0
                                      2 "dl/a.zip" 10%N 2%nat).
  - apply (scanning_no_new_file growing "dl" [] 180 0 0).
    + apply scanning_entry.
    + lia.
    + reflexivity.
  - lia.
  - reflexivity.
  - lia.
  - lia.
  - intros k Hk. unfold growing, getsize, only.
    rewrite String.eqb_refl. f_equal.
    destruct (Z.ltb_spec (2 + Z.of_nat 2 + k) 4) as [H|H];
      [lia|reflexivity].
Defined.

Local Close Scope Z_scope.

Lemma allocate_smallest_counter_witness :
  ("photo_1.jpg" = join "d" "photo.jpg"
   /\ os_path_exists ["d/photo.jpg"] "photo_1.jpg" = false)
  \/ (os_path_exists ["d/photo.jpg"] (join "d" "photo.jpg") = true
      /\ exists k,
          (1 <= k)%nat
          /\ "photo_1.jpg" = fst (splitext "photo.jpg") ++ "_" ++ of_nat k
                             ++ snd (splitext "photo.jpg")
          /\ os_path_exists ["d/photo.jpg"] "photo_1.jpg" = false
          /\ forall j, (1 <= j < k)%nat ->
               os_path_exists ["d/photo.jpg"]
                 (fst (splitext "photo.jpg") ++ "_" ++ of_nat j
                  ++ snd (splitext "photo.jpg")) = true).
Proof.
  apply (allocate_smallest_counter ["d/photo.jpg"] "d" "photo.jpg").
  reflexivity.
Defined.

Lemma recorded_download_after_step4_witness :
  rewrite_paths (final_files_destination model_layout)
    [recorded_path true (temp_files_subdir model_layout)
                   (join "out/temp_downloads" "model.zip")]
  = [join (final_files_destination model_layout) "model.zip"].
Proof.
  apply (recorded_download_after_step4 true model_layout
                                       "out/temp_downloads" "model.zip").
  reflexivity.
Defined.

Lemma move_and_rewrite_outcome_witness :
  move_and_rewrite no_os_failure model_layout crowded (record_of [])
  = Completed
      {| temp_images := Some [];
         final_images := ["image_1.jpg"; "image_2.jpg"];
         temp_files := Some ["b.stl"];
         final_files := ["b.stl"; "a.stl"] |}
      (rewrite_details model_layout (record_of [])).
Proof.
  apply (move_and_rewrite_outcome
           no_os_failure model_layout
           ["image_1.jpg"; "image_2.jpg"] [] ["a.stl"; "b.stl"] ["b.stl"]).
  - repeat constructor; simpl; intuition discriminate.
  - repeat constructor; simpl; intuition discriminate.
  - reflexivity.
Defined.

Lemma clean_directory_outcome_witness :
  clean_directory (fun p => String.eqb p "tmp/unpacked") "tmp" None = Some []
  /\ clean_directory (fun p => String.eqb p "tmp/unpacked") "tmp"
                     (Some leftovers)
     = Some (List.filter
               (fun e => negb (remove_item
                                 (fun p => String.eqb p "tmp/unpacked")
                                 "tmp" e))
               leftovers).
Proof.
  apply (clean_directory_outcome
           (fun p => String.eqb p "tmp/unpacked") "tmp" leftovers).
  repeat constructor; simpl; intuition discriminate.
Defined.

Lemma clean_directory_empties_witness :
  clean_directory (fun _ => false) "tmp" (Some leftovers) = Some [].
Proof.
  apply (clean_directory_empties (fun _ => false) "tmp" leftovers).
  - repeat constructor; simpl; intuition discriminate.
  - intros e [<-|[<-|[<-|[]]]]; split; (discriminate || reflexivity).
Defined.

Lemma load_saved_urls_witness :
  load_urls_from_file
    (Content (written [" https://www.printables.com/model/1-a "; ""]))
  = List.filter nonempty
      (map (strip isspace) [" https://www.printables.com/model/1-a "; ""]).
Proof.
  apply (load_saved_urls [" https://www.printables.com/model/1-a "; ""]).
  intros url [<-|[<-|[]]]; split; unfold occurs; simpl;
    intuition discriminate.
Defined.

Lemma load_saved_urls_exact_witness :
  load_urls_from_file
    (Content (written ["https://www.printables.com/model/1-a";
                       "https://www.printables.com/model/2-b"]))
  = ["https://www.printables.com/model/1-a";
     "https://www.printables.com/model/2-b"].
Proof.
  apply (load_saved_urls_exact ["https://www.printables.com/model/1-a";
                                "https://www.printables.com/model/2-b"]).
  intros url [<-|[<-|[]]]; (split; [|split]);
    try (split; unfold occurs; simpl; intuition discriminate);
    try discriminate; reflexivity.
Defined.

Lemma model_id_from_url_witness :
  model_id 0 "https://www.printables.com/model/123-boat" = "123"
  /\ "123" <> ""
  /\ (forall c, occurs c "123" -> isdigit c = true)
  /\ exists pre post,
      "https://www.printables.com/model/123-boat"
      = pre ++ "/model/" ++ "123" ++ post
      /\ digits post = "".
Proof.
  apply (model_id_from_url 0 "https://www.printables.com/model/123-boat").
  reflexivity.
Defined.

Lemma model_id_of_collected_link_witness :
  exists link,
    collect_link ("/model/" ++ "123" ++ "-boat?x=1") = Some link
    /\ model_id 0 link = "123".
Proof.
  apply (model_id_of_collected_link 0 "123" "-boat?x=1").
  - discriminate.
  - intros c [<-|[<-|[<-|[]]]]; reflexivity.
  - reflexivity.
Defined.

End MoreRuns.
